(** * Klasa: the [Monitor] base class and the [messageDeleteBulk] core event

    The development has three parts.

    - [Js]: the fragment of JavaScript the two source files are written in:
      values, truthiness, strict equality, objects as finite maps from
      property names to values, a heap of objects, and a state-and-exception
      monad in which property reads, property writes, [&&], [||] and [!]
      are given their JavaScript meaning (short-circuit evaluation that
      returns the operand, [TypeError] on a property read of [undefined] or
      [null]).
    - [Monitor]: the [Monitor] base class (constructor, [run], [init],
      [shouldRun], [toJSON]) written in that fragment.
    - [BulkDelete]: [events/coreMessageDeleteBulk.js], whose [run] walks the
      bulk-deleted messages and awaits [delete()] on their responses.

    The properties follow the definitions: [JsFacts], [MonitorSpec] and
    [BulkDeleteSpec]. *)

From stdpp Require Import base option list strings gmap fin_maps.
From Stdlib Require Import ZArith Lia.

Open Scope Z_scope.

(** ** A fragment of JavaScript *)

Module Js.

(** Object identity: two object values are [===] exactly when they are the
    same location. *)
Definition loc := positive.

(** Language values.  Numbers are restricted to the integers and [NaN],
    which is all that truthiness and strict equality need here. *)
Inductive value : Type :=
| VUndefined
| VNull
| VBool (b : bool)
| VNumber (n : Z)
| VNaN
| VString (s : string)
| VObject (l : loc).

#[global] Instance value_eq_dec : EqDecision value.
Proof. solve_decision. Defined.

#[global] Instance value_inhabited : Inhabited value := populate VUndefined.

(** [ToBoolean]: [undefined], [null], [false], [0], [NaN] and the empty
    string are falsy, everything else (every object included) is truthy. *)
Definition truthy (v : value) : bool :=
  match v with
  | VUndefined | VNull | VNaN => false
  | VBool b => b
  | VNumber n => negb (n =? 0)
  | VString s => negb (String.eqb s "")
  | VObject _ => true
  end.

(** [a === b]: same type and same value, objects by identity, and [NaN]
    different from itself. *)
Definition strict_eq (a b : value) : bool :=
  match a, b with
  | VNaN, _ | _, VNaN => false
  | _, _ => bool_decide (a = b)
  end.

(** [a !== b] is by definition the negation of [a === b]. *)
Definition strict_ne (a b : value) : bool := negb (strict_eq a b).

(** An object is its own properties; the heap maps the allocated locations
    to their objects. *)
Abbreviation object := (gmap string value).
Abbreviation heap := (gmap loc object).

(** The own properties of the object at [l].  Every location held by a
    value is allocated; reading an unallocated one gives an object without
    properties. *)
Definition obj_at (σ : heap) (l : loc) : object := default ∅ (σ !! l).

(** [o.p] for an object [o]: the value of the property, [undefined] when
    the object has none of that name. *)
Definition field (σ : heap) (l : loc) (p : string) : value :=
  default VUndefined (obj_at σ l !! p).

(** What a piece of code can end with: a value, or a thrown exception
    (for an [async] function: a promise fulfilled with the value, or
    rejected with the exception). *)
Inductive exn : Type :=
| TypeError
| Thrown (v : value).

Inductive completion (A : Type) : Type :=
| Normal (a : A)
| Abrupt (e : exn).
Arguments Normal {A} a.
Arguments Abrupt {A} e.

(** Code runs against a state [S] (the heap for [Monitor]) and ends with a
    completion and the state it leaves. *)
Definition M (S A : Type) : Type := S → completion A * S.

#[global] Instance M_ret {S} : MRet (M S) := λ A a σ, (Normal a, σ).

#[global] Instance M_bind {S} : MBind (M S) := λ A B k m σ,
  match m σ with
  | (Normal a, σ') => k a σ'
  | (Abrupt e, σ') => (Abrupt e, σ')
  end.

Definition throw {S A} (e : exn) : M S A := λ σ, (Abrupt e, σ).

(** The value of a normal completion ([d] for an abrupt one). *)
Definition completion_value {A} (d : A) (c : completion A) : A :=
  match c with Normal a => a | Abrupt _ => d end.

(** [v.p]: a [TypeError] when [v] is [undefined] or [null]; the property
    of the object when [v] is one; [undefined] on the other primitives
    (none of the property names read in this code base exists on the
    wrappers of booleans, numbers or strings). *)
Definition get_prop (v : value) (p : string) : M heap value := λ σ,
  match v with
  | VUndefined | VNull => (Abrupt TypeError, σ)
  | VObject l => (Normal (field σ l p), σ)
  | _ => (Normal VUndefined, σ)
  end.

(** The heap after the property [p] of the object at [l] is set to [x]. *)
Definition store (σ : heap) (l : loc) (p : string) (x : value) : heap :=
  <[l := <[p := x]> (obj_at σ l)]> σ.

(** [v.p = x]: the write when [v] is an object, a [TypeError] when it is
    [undefined], [null] or, the body of a class being strict code, any
    other primitive. *)
Definition set_prop (v : value) (p : string) (x : value) : M heap unit := λ σ,
  match v with
  | VObject l => (Normal (), store σ l p x)
  | _ => (Abrupt TypeError, σ)
  end.

(** An object literal: a new object at a location that was not in use. *)
Definition alloc (o : object) : M heap value := λ σ,
  let l := fresh (dom σ) in (Normal (VObject l), <[l := o]> σ).

(** [a && b] evaluates [a]; when it is falsy the result is that value and
    [b] is not evaluated, otherwise the result is [b]'s. *)
Definition js_and {S} (a b : M S value) : M S value :=
  v ← a; if truthy v then b else mret v.

(** [a || b]: the value of [a] when it is truthy, otherwise [b]'s. *)
Definition js_or {S} (a b : M S value) : M S value :=
  v ← a; if truthy v then mret v else b.

(** [!a] is always a boolean. *)
Definition js_not {S} (a : M S value) : M S value :=
  v ← a; mret (VBool (negb (truthy v))).

(** [a === b] and [a !== b], left operand first. *)
Definition js_seq {S} (a b : M S value) : M S value :=
  x ← a; y ← b; mret (VBool (strict_eq x y)).

Definition js_sne {S} (a b : M S value) : M S value :=
  x ← a; y ← b; mret (VBool (strict_ne x y)).

(** [String.prototype.slice(start, end)] on integer arguments: a negative
    index counts from the end, both are clamped to [0 .. length], and the
    result is empty when the start is not before the end.  Characters are
    the string's code units. *)
Definition clamp_index (len i : Z) : Z :=
  if i <? 0 then Z.max (len + i) 0 else Z.min i len.

Definition slice (s : string) (start end_ : Z) : string :=
  let len := Z.of_nat (String.length s) in
  let from := clamp_index len start in
  let to := clamp_index len end_ in
  if to <=? from then ""%string
  else String.substring (Z.to_nat from) (Z.to_nat (to - from)) s.

(** [v.slice(start, end)].  On a string it is [String.prototype.slice].
    [undefined] and [null] have no properties, and booleans and numbers
    have no [slice], so on them the call is a [TypeError].  What the call
    does on an object depends on the object: an array, a buffer or a
    [String] object has the method, a plain object has not.  Methods of
    objects are outside this fragment, so that case is the parameter
    [slice_method]: [slice_method l start end] is the call
    [o.slice(start, end)] for the object [o] at [l]. *)
Definition call_slice (slice_method : loc → Z → Z → M heap value)
    (v : value) (start end_ : Z) : M heap value :=
  match v with
  | VString s => mret (VString (slice s start end_))
  | VObject l => slice_method l start end_
  | _ => throw TypeError
  end.

(** The values that are not objects. *)
Definition primitive (v : value) : bool :=
  match v with VObject _ => false | _ => true end.

(** [e.p] for an expression [e]. *)
Definition member (e : M heap value) (p : string) : M heap value :=
  v ← e; get_prop v p.

(** A parameter default [p = d]: the initialiser runs only when the argument
    is [undefined]. *)
Definition default_arg (v : value) (d : M heap value) : M heap value :=
  if decide (v = VUndefined) then d else mret v.

(** [for (const x of l) body]: the body runs on the elements in order, and
    an exception thrown by one run ends the loop. *)
Fixpoint for_of {S A} (l : list A) (body : A → M S unit) : M S unit :=
  match l with
  | [] => mret ()
  | x :: l' => body x;; for_of l' body
  end.

(** Code that leaves every state as it found it, whatever it returns or
    throws. *)
Definition readonly {S A} (m : M S A) : Prop := ∀ σ, (m σ).2 = σ.

(** [undefined] and [null], the two values without properties. *)
Definition nullish (v : value) : bool :=
  match v with VUndefined | VNull => true | _ => false end.

(** A variable or literal used as an expression. *)
Definition val (v : value) : M heap value := mret v.
Coercion val : value >-> M.

End Js.

Import Js.

Declare Scope js_scope.
Delimit Scope js_scope with js.
Notation "a && b" := (js_and a b) : js_scope.
Notation "a || b" := (js_or a b) : js_scope.
Notation "! a" := (js_not a) (at level 35, right associativity) : js_scope.
Notation "a === b" := (js_seq a b) (at level 37, no associativity) : js_scope.
Notation "a !== b" := (js_sne a b) (at level 37, no associativity) : js_scope.
Notation "e ∙ p" := (member e p) (at level 15, left associativity) : js_scope.
Notation "'const' x := e ; k" := (e ≫= (λ x : value, k))
  (at level 10, x name, e at level 100, k at level 200, only parsing)
  : js_scope.

(** ** [class Monitor] *)

Module Monitor.

Section WithUtil.

(** [mergeDefault] of [util/util] is called by the constructor and is not
    part of the files at hand: the constructor is parametrised by it.  It
    may read and write the heap and may throw. *)
Variable mergeDefault : value → value → M heap value.

(** The [slice] method of the objects that have one, for the case of a
    [file] that is an object (see [call_slice]). *)
Variable slice_method : loc → Z → Z → M heap value.

(** [constructor(client, dir, file, options = {})], run on the fresh object
    [this]. *)
Definition constructor (this client dir file options : value) : M heap unit :=
  (const options := default_arg options (alloc ∅);
   const defaults := client ∙ "options" ∙ "pieceDefaults" ∙ "monitors";
   const options := mergeDefault defaults options;
   set_prop this "client" client;;
   set_prop this "dir" dir;;
   set_prop this "file" file;;
   const name := options ∙ "name" || call_slice slice_method file 0 (-3);
   set_prop this "name" name;;
   set_prop this "type" (VString "monitor");;
   const enabled := options ∙ "enabled";
   set_prop this "enabled" enabled;;
   const ignoreBots := options ∙ "ignoreBots";
   set_prop this "ignoreBots" ignoreBots;;
   const ignoreSelf := options ∙ "ignoreSelf";
   set_prop this "ignoreSelf" ignoreSelf;;
   const ignoreOthers := options ∙ "ignoreOthers";
   set_prop this "ignoreOthers" ignoreOthers;;
   const ignoreWebhooks := options ∙ "ignoreWebhooks";
   set_prop this "ignoreWebhooks" ignoreWebhooks)%js.

(** [new Monitor(client, dir, file, options)]. *)
Definition new (client dir file options : value) : M heap value :=
  (const this := alloc ∅;
   constructor this client dir file options;;
   mret this)%js.

End WithUtil.

(** [run() {}]: the body is empty, the call returns [undefined]. *)
Definition run (this msg : value) : M heap value := mret VUndefined.

(** [async init() {}]: the promise is fulfilled with [undefined]. *)
Definition init (this : value) : M heap value := mret VUndefined.

(** [shouldRun(msg)]. *)
Definition shouldRun (this msg : value) : M heap value :=
  (this ∙ "enabled" &&
   !(this ∙ "ignoreBots" && msg ∙ "author" ∙ "bot") &&
   !(this ∙ "ignoreSelf" && this ∙ "client" ∙ "user" === msg ∙ "author") &&
   !(this ∙ "ignoreOthers" && this ∙ "client" ∙ "user" !== msg ∙ "author") &&
   !(this ∙ "ignoreWebhooks" && msg ∙ "webhookID"))%js.

(** The property names of the object literal of [toJSON], in source order. *)
Definition json_fields : list string :=
  ["dir"; "file"; "name"; "type"; "enabled";
   "ignoreBots"; "ignoreSelf"; "ignoreOthers"; "ignoreWebhooks"]%string.

(** [toJSON()]: the property values are read from [this] in source order and
    the literal is allocated. *)
Definition toJSON (this : value) : M heap value :=
  (const dir := this ∙ "dir";
   const file := this ∙ "file";
   const name := this ∙ "name";
   const type := this ∙ "type";
   const enabled := this ∙ "enabled";
   const ignoreBots := this ∙ "ignoreBots";
   const ignoreSelf := this ∙ "ignoreSelf";
   const ignoreOthers := this ∙ "ignoreOthers";
   const ignoreWebhooks := this ∙ "ignoreWebhooks";
   alloc (list_to_map
     [("dir", dir); ("file", file); ("name", name); ("type", type);
      ("enabled", enabled); ("ignoreBots", ignoreBots);
      ("ignoreSelf", ignoreSelf); ("ignoreOthers", ignoreOthers);
      ("ignoreWebhooks", ignoreWebhooks)]%string))%js.

(** The configuration of a monitor as the documentation types it: five
    booleans. *)
Record config : Type := {
  enabled : bool;
  ignoreBots : bool;
  ignoreSelf : bool;
  ignoreOthers : bool;
  ignoreWebhooks : bool
}.

(** The monitor at [this] holds the configuration [cfg]. *)
Definition has_config (σ : heap) (this : loc) (cfg : config) : Prop :=
  field σ this "enabled" = VBool (enabled cfg) ∧
  field σ this "ignoreBots" = VBool (ignoreBots cfg) ∧
  field σ this "ignoreSelf" = VBool (ignoreSelf cfg) ∧
  field σ this "ignoreOthers" = VBool (ignoreOthers cfg) ∧
  field σ this "ignoreWebhooks" = VBool (ignoreWebhooks cfg).

(** The monitor at [this] belongs to the client object [client], and the
    message at [msg] has the user object [author] as its author. *)
Definition in_scene (σ : heap) (this client msg author : loc) : Prop :=
  field σ this "client" = VObject client ∧
  field σ msg "author" = VObject author.

(** The properties of a message that the filter looks at. *)
Definition isBot (σ : heap) (author : loc) : bool :=
  truthy (field σ author "bot").

Definition isSelf (σ : heap) (client author : loc) : bool :=
  strict_eq (field σ client "user") (VObject author).

Definition isOther (σ : heap) (client author : loc) : bool :=
  strict_ne (field σ client "user") (VObject author).

Definition hasWebhookID (σ : heap) (msg : loc) : bool :=
  truthy (field σ msg "webhookID").

(** The names of the five configuration properties. *)
Definition flag_fields : list string :=
  ["enabled"; "ignoreBots"; "ignoreSelf"; "ignoreOthers";
   "ignoreWebhooks"]%string.

(** The names of the four ignore flags. *)
Definition ignore_fields : list string :=
  ["ignoreBots"; "ignoreSelf"; "ignoreOthers"; "ignoreWebhooks"]%string.

(** *** A heap for examples

    A client with its user and its piece defaults, a monitor [invite] that
    lets other users' messages through, a monitor [silent] with every
    ignore flag set, a message written by a human, and an object
    [fresh_this] without properties for the constructor to fill. *)
Module Example.

Definition client : loc := 1%positive.
Definition clientUser : loc := 2%positive.
Definition clientOptions : loc := 3%positive.
Definition pieceDefaults : loc := 4%positive.
Definition monitorDefaults : loc := 5%positive.
Definition invite : loc := 6%positive.
Definition silent : loc := 7%positive.
Definition message : loc := 8%positive.
Definition author : loc := 9%positive.
Definition fresh_this : loc := 10%positive.

Definition monitor_object (name : string) (ignoreOthers : bool) : object :=
  list_to_map
    [("client", VObject client); ("dir", VString "monitors");
     ("file", VString (name +:+ ".js")); ("name", VString name);
     ("type", VString "monitor"); ("enabled", VBool true);
     ("ignoreBots", VBool true); ("ignoreSelf", VBool true);
     ("ignoreOthers", VBool ignoreOthers);
     ("ignoreWebhooks", VBool true)]%string.

Definition σ : heap :=
  list_to_map
    [(client, list_to_map [("user", VObject clientUser);
                           ("options", VObject clientOptions)]%string);
     (clientUser, {["bot" := VBool true]});
     (clientOptions, {["pieceDefaults" := VObject pieceDefaults]});
     (pieceDefaults, {["monitors" := VObject monitorDefaults]});
     (monitorDefaults,
        list_to_map [("enabled", VBool true); ("ignoreBots", VBool true);
                     ("ignoreSelf", VBool true);
                     ("ignoreOthers", VBool true)]%string);
     (invite, monitor_object "invite" false);
     (silent, monitor_object "silent" true);
     (message, list_to_map [("author", VObject author);
                            ("webhookID", VNull)]%string);
     (author, {["bot" := VBool false]});
     (fresh_this, ∅)].

(** The objects of the example heaps are plain objects: none of them has
    a [slice] method, and calling it is a [TypeError]. *)
Definition slice_method (l : loc) (start end_ : Z) : M heap value :=
  throw TypeError.

(** The same heap with an options object that names the monitor. *)
Definition named_options : loc := 11%positive.

Definition σ_named : heap :=
  <[named_options := {["name" := VString "greeter"]}]> σ.

(** Modelled from the spec: the options-merging utility [mergeDefault] of
    [util/util], which is not among the files at hand ("merging
    caller-supplied overrides onto framework-wide defaults").  Every
    property that the given options leave undefined takes the value of the
    defaults, and the given object is returned; without given options the
    defaults are.  The statements about the constructor hold for any merge
    function; this one only instantiates them in the examples. *)
Definition merge_value (given def : value) : option value :=
  Some (if decide (given = VUndefined) then def else given).

Definition mergeDefault (def given : value) : M heap value := λ σ,
  match given with
  | VObject g =>
      match def with
      | VObject d =>
          (Normal given,
           <[g := union_with merge_value (obj_at σ g) (obj_at σ d)]> σ)
      | _ => (Normal given, σ)
      end
  | _ => if truthy given then (Normal given, σ) else (Normal def, σ)
  end.

End Example.

End Monitor.

(** ** The [messageDeleteBulk] core event *)

Module BulkDelete.

(** Keys of the [messages] collection. *)
Definition snowflake := string.

(** Identity of a response (a message object of the chat library). *)
Definition handle := positive.

(** [message.command] is [null] or a command with a [deletable] flag;
    [message.responses] is the array of the responses sent for it.  Both
    are taken as they are when the handler is called: the library is
    assumed not to replace them while the handler is suspended. *)
Record Command : Type := { deletable : bool }.

Record Message : Type := {
  command : option Command;
  responses : list handle
}.

(** What the handler does to the outside: a delete request issued for a
    response on behalf of a source message, and the moment the awaited
    promise of that request settles ([true] when it is fulfilled). *)
Inductive event : Type :=
| Issued (source : snowflake) (response : handle)
| Settled (source : snowflake) (response : handle) (fulfilled : bool).

#[global] Instance event_eq_dec : EqDecision event.
Proof. solve_decision. Defined.

(** [message.command && message.command.deletable] *)
Definition command_deletable (message : Message) : bool :=
  match command message with
  | Some c => deletable c
  | None => false
  end.

Definition is_normal {A} (c : completion A) : bool :=
  match c with Normal _ => true | Abrupt _ => false end.

(** A settlement that is a rejection. *)
Definition is_rejection (e : event) : bool :=
  match e with
  | Settled _ _ false => true
  | _ => false
  end.

Section WithLibrary.

(** The chat library is not part of the files at hand.  [World] is whatever
    state it keeps; [deleted w msg] is the value of [msg.deleted] in [w];
    [delete msg] is what awaiting [msg.delete()] does: it ends fulfilled or
    rejected and leaves a new state. *)
Context {World : Type}.
Variable deleted : World → handle → bool.
Variable delete : handle → M World unit.

(** The handler runs against the library's state and the events so far. *)
Record state : Type := { world : World; trace : list event }.

Definition start (w : World) : state := {| world := w; trace := [] |}.

Definition emit (e : event) : M state unit := λ s,
  (Normal (), {| world := world s; trace := trace s ++ [e] |}).

(** [msg.deleted] *)
Definition get_deleted (msg : handle) : M state bool := λ s,
  (Normal (deleted (world s) msg), s).

(** The library carries out [msg.delete()] until its promise settles. *)
Definition settle (msg : handle) : M state (completion unit) := λ s,
  let '(c, w) := delete msg (world s) in
  (Normal c, {| world := w; trace := trace s |}).

(** [await msg.delete()] in the turn of the message [source]: the request is
    issued, the handler is suspended until the promise settles, and a
    rejection is thrown at the [await]. *)
Definition await_delete (source : snowflake) (msg : handle) : M state unit :=
  emit (Issued source msg);;
  c ← settle msg;
  emit (Settled source msg (is_normal c));;
  match c with
  | Normal _ => mret ()
  | Abrupt e => throw e
  end.

(** [async run(messages)]; [messages.values()] yields the messages in the
    order of the collection's entries. *)
Definition run (messages : list (snowflake * Message)) : M state unit :=
  for_of messages (λ '(id, message),
    if command_deletable message then
      for_of (responses message) (λ msg,
        d ← get_deleted msg;
        if negb d then await_delete id msg else mret ())
    else mret ()).

(** The inner loop of [run] on its own: the turn of the message [id] with
    the responses [rs]. *)
Definition turn (id : snowflake) (rs : list handle) : M state unit :=
  for_of rs (λ msg,
    d ← get_deleted msg;
    if negb d then await_delete id msg else mret ()).

(** How a call ended, read off the events [t] it added and the state [w] it
    left: no rejection when it completed, and otherwise a last request
    whose rejection is the exception thrown. *)
Definition ended (c : completion unit) (w : World) (t : list event) : Prop :=
  match c with
  | Normal _ => Forall (λ e, is_rejection e = false) t
  | Abrupt e =>
      ∃ t0 id msg w0,
        t = t0 ++ [Issued id msg; Settled id msg false] ∧
        Forall (λ e, is_rejection e = false) t0 ∧
        delete msg w0 = (Abrupt e, w)
  end.

End WithLibrary.

(** The responses for which a delete request was issued in the turn of the
    message [id], in the order of the requests. *)
Definition requests_for (id : snowflake) (t : list event) : list handle :=
  omap (λ e, match e with
             | Issued id' r => if decide (id' = id) then Some r else None
             | Settled _ _ _ => None
             end) t.

(** The responses the handler walks in the turns of the entries under the
    key [id]: all of them when the command exists and is deletable, none
    otherwise. *)
Definition walked (id : snowflake) (messages : list (snowflake * Message))
    : list handle :=
  messages ≫= λ '(id', message),
    if decide (id' = id) then
      if command_deletable message then responses message else []
    else [].

(** The requests of the message [id] that are in flight at the end of [t]:
    issued and not yet settled. *)
Fixpoint in_flight (id : snowflake) (t : list event) : Z :=
  match t with
  | [] => 0
  | Issued id' _ :: t' =>
      (if decide (id' = id) then 1 else 0) + in_flight id t'
  | Settled id' _ _ :: t' =>
      in_flight id t' - (if decide (id' = id) then 1 else 0)
  end.

(** Every request is followed at once by its own settlement. *)
Inductive awaited : list event → Prop :=
| awaited_nil : awaited []
| awaited_cons id r b t :
    awaited t → awaited (Issued id r :: Settled id r b :: t).

(** All the delete requests of a trace, each with the key of the message
    in whose turn it was issued, in the order of the requests. *)
Definition all_requests (t : list event) : list (snowflake * handle) :=
  omap (λ e, match e with
             | Issued id r => Some (id, r)
             | Settled _ _ _ => None
             end) t.

(** The work list of a call: in the order of the collection, the responses
    of the messages whose command exists and is deletable that are not
    marked deleted in [w]. *)
Definition pending {World : Type} (deleted : World → handle → bool)
    (w : World) (messages : list (snowflake * Message))
    : list (snowflake * handle) :=
  messages ≫= λ '(id, message),
    if command_deletable message then
      (λ r, (id, r)) <$> filter (λ r, deleted w r = false) (responses message)
    else [].

(** *** A library state for examples

    The state is the set of the messages marked deleted.  A delete request
    for a message of [failing] is rejected; any other one is fulfilled and
    marks its message. *)
Module Example.

Definition World := gset handle.

Definition deleted (w : World) (msg : handle) : bool := bool_decide (msg ∈ w).

Definition delete (failing : gset handle) (msg : handle) : M World unit :=
  λ w,
    if decide (msg ∈ failing)
    then (Abrupt (Thrown (VString "DiscordAPIError")), w)
    else (Normal (), {[msg]} ∪ w).

Definition cmd (d : bool) : option Command := Some {| deletable := d |}.

(** One bulk-deleted message of a deletable command with two responses. *)
Definition two_responses : list (snowflake * Message) :=
  [("1"%string, {| command := cmd true; responses := [10; 11]%positive |})].

(** Two bulk-deleted messages that record the same response: one ran no
    command, the other a deletable one. *)
Definition shared_response : list (snowflake * Message) :=
  [("1"%string, {| command := None; responses := [10%positive] |});
   ("2"%string, {| command := cmd true; responses := [10%positive] |})].

(** Four bulk-deleted messages: two of deletable commands, one that ran no
    command, one of a command that is not deletable. *)
Definition four_messages : list (snowflake * Message) :=
  [("1"%string, {| command := cmd true; responses := [10; 11; 12]%positive |});
   ("2"%string, {| command := None; responses := [13]%positive |});
   ("3"%string, {| command := cmd false; responses := [14]%positive |});
   ("4"%string, {| command := cmd true; responses := [15]%positive |})].

End Example.

End BulkDelete.

(** * Properties *)

(** ** Read-only code *)

Module JsFacts.

Lemma readonly_ret {S A} (a : A) : readonly (mret a : M S A).
Proof. by intros σ. Qed.

Lemma readonly_bind {S A B} (m : M S A) (k : A → M S B) :
  readonly m → (∀ a, readonly (k a)) → readonly (m ≫= k).
Proof.
  intros Hm Hk σ. unfold mbind, M_bind.
  specialize (Hm σ). destruct (m σ) as [[a|e] σ']; simpl in *; subst.
  - apply Hk.
  - done.
Qed.

Lemma readonly_get_prop v p : readonly (get_prop v p).
Proof. intros σ. by destruct v. Qed.

Lemma readonly_val v : readonly (val v).
Proof. apply readonly_ret. Qed.

Lemma readonly_member e p : readonly e → readonly (member e p).
Proof.
  intros He. apply readonly_bind; [done|]. intros v. apply readonly_get_prop.
Qed.

Lemma readonly_js_and {S} (a b : M S value) :
  readonly a → readonly b → readonly (js_and a b).
Proof.
  intros Ha Hb. apply readonly_bind; [done|].
  intros v. destruct (truthy v); [done|apply readonly_ret].
Qed.

Lemma readonly_js_not {S} (a : M S value) : readonly a → readonly (js_not a).
Proof.
  intros Ha. apply readonly_bind; [done|]. intros v. apply readonly_ret.
Qed.

Lemma readonly_js_seq {S} (a b : M S value) :
  readonly a → readonly b → readonly (js_seq a b).
Proof.
  intros Ha Hb. apply readonly_bind; [done|]. intros x.
  apply readonly_bind; [done|]. intros y. apply readonly_ret.
Qed.

Lemma readonly_js_sne {S} (a b : M S value) :
  readonly a → readonly b → readonly (js_sne a b).
Proof.
  intros Ha Hb. apply readonly_bind; [done|]. intros x.
  apply readonly_bind; [done|]. intros y. apply readonly_ret.
Qed.

Create HintDb readonly.
#[export] Hint Resolve readonly_ret readonly_get_prop readonly_val
  readonly_member readonly_js_and readonly_js_not readonly_js_seq
  readonly_js_sne : readonly.

(** Sequencing after a normal completion. *)
Lemma bind_normal {S A B} (m : M S A) (k : A → M S B) σ a σ' :
  m σ = (Normal a, σ') → (m ≫= k) σ = k a σ'.
Proof. intros H. unfold mbind, M_bind. by rewrite H. Qed.

(** Reading after a write. *)
Lemma field_store_eq σ l p x : field (store σ l p x) l p = x.
Proof.
  unfold field, store, obj_at. rewrite lookup_insert_eq. simpl.
  by rewrite lookup_insert_eq.
Qed.

Lemma field_store_ne σ l p x l' p' :
  p ≠ p' → field (store σ l p x) l' p' = field σ l' p'.
Proof.
  intros Hp. unfold field, store, obj_at.
  destruct (decide (l = l')) as [->|Hl].
  - rewrite lookup_insert_eq. simpl. by rewrite lookup_insert_ne.
  - by rewrite lookup_insert_ne.
Qed.

(** [slice(0, -3)] drops the last three characters. *)
Lemma length_append (s1 s2 : string) :
  String.length (s1 +:+ s2) = (String.length s1 + String.length s2)%nat.
Proof.
  induction s1 as [|a s1 IH]; [done|].
  change (String a s1 +:+ s2) with (String a (s1 +:+ s2)). simpl. by rewrite IH.
Qed.

Lemma substring_append_prefix (s1 s2 : string) :
  String.substring 0 (String.length s1) (s1 +:+ s2) = s1.
Proof.
  induction s1 as [|a s1 IH].
  - by destruct s2.
  - change (String a s1 +:+ s2) with (String a (s1 +:+ s2)). simpl.
    by rewrite IH.
Qed.

Lemma slice_strip_extension (base ext : string) :
  String.length ext = 3%nat → slice (base +:+ ext) 0 (-3) = base.
Proof.
  intros Hext. unfold slice, clamp_index. rewrite length_append, Hext. simpl.
  destruct base as [|a base].
  - reflexivity.
  - rewrite Z.max_l, Z.min_l by lia.
    destruct (Z.leb_spec (Z.of_nat (String.length (String a base) + 3) + -3) 0)
      as [Hle|_]; [simpl in Hle; lia|].
    replace (Z.to_nat (Z.of_nat (String.length (String a base) + 3) + -3 - 0))
      with (String.length (String a base)) by lia.
    apply substring_append_prefix.
Qed.

Lemma slice_short (s : string) :
  (String.length s ≤ 3)%nat → slice s 0 (-3) = ""%string.
Proof.
  intros Hlen. unfold slice, clamp_index. simpl.
  rewrite Z.max_r, Z.min_l by lia. reflexivity.
Qed.

End JsFacts.

(** ** [Monitor] *)

Module MonitorSpec.

Import Monitor JsFacts.

Ltac js_unfold :=
  unfold shouldRun, member, js_and, js_or, js_not, js_seq, js_sne, val,
    get_prop, mbind, mret, M_bind, M_ret.

(** [shouldRun] never writes. *)
Lemma shouldRun_readonly this msg : readonly (shouldRun this msg).
Proof. unfold shouldRun. auto 20 with readonly. Qed.

(** What [shouldRun] computes on a monitor with a client and a message with
    an author, whatever the values of the flags. *)
Lemma shouldRun_eval σ this client msg author :
  in_scene σ this client msg author →
  shouldRun (VObject this) (VObject msg) σ =
    (Normal
       (if truthy (field σ this "enabled") then
          VBool (negb (truthy (field σ this "ignoreBots") && isBot σ author) &&
                 negb (truthy (field σ this "ignoreSelf") && isSelf σ client author) &&
                 negb (truthy (field σ this "ignoreOthers") && isOther σ client author) &&
                 negb (truthy (field σ this "ignoreWebhooks") && hasWebhookID σ msg))
        else field σ this "enabled"), σ).
Proof.
  intros [Hc Ha]. unfold isBot, isSelf, isOther, hasWebhookID.
  js_unfold. unfold strict_ne.
  repeat first
    [ progress (cbn -[field strict_eq])
    | rewrite Hc
    | rewrite Ha
    | match goal with
      | |- context [truthy (field ?s ?l ?p)] =>
          destruct (truthy (field s l p)) eqn:?
      | |- context [strict_eq ?a ?b] => destruct (strict_eq a b) eqn:?
      end ];
  congruence.
Qed.

(** Outside the typed inputs the chain shows its JavaScript nature: a
    monitor without an [enabled] property answers [undefined], not [false],
    and a message without an author makes the bot test throw. *)
Example shouldRun_enabled_unset :
  (shouldRun (VObject Example.fresh_this) (VObject Example.message)
     Example.σ).1 = Normal VUndefined.
Proof. vm_compute. reflexivity. Qed.

Example shouldRun_author_null :
  (shouldRun (VObject Example.invite) (VObject Example.message)
     (store Example.σ Example.message "author" VNull)).1 = Abrupt TypeError.
Proof. vm_compute. reflexivity. Qed.

(** C1: on a monitor whose five flags are booleans and a message with an
    author, [shouldRun] changes nothing and returns the boolean
    [enabled && !(ignoreBots && bot) && !(ignoreSelf && self) &&
     !(ignoreOthers && other) && !(ignoreWebhooks && webhook)]; so it returns
    [true] exactly when the monitor is enabled and no ignore flag that is
    set matches the message. *)
Theorem shouldRun_formula σ this client msg author cfg :
  has_config σ this cfg →
  in_scene σ this client msg author →
  shouldRun (VObject this) (VObject msg) σ =
    (Normal (VBool (enabled cfg &&
                    negb (ignoreBots cfg && isBot σ author) &&
                    negb (ignoreSelf cfg && isSelf σ client author) &&
                    negb (ignoreOthers cfg && isOther σ client author) &&
                    negb (ignoreWebhooks cfg && hasWebhookID σ msg))), σ).
Proof.
  intros (He & Hb & Hs & Ho & Hw) Hscene.
  rewrite (shouldRun_eval _ _ _ _ _ Hscene), He, Hb, Hs, Ho, Hw. simpl.
  by destruct (enabled cfg).
Qed.

Lemma shouldRun_formula_witness :
  shouldRun (VObject Example.invite) (VObject Example.message) Example.σ =
    (Normal (VBool true), Example.σ).
Proof.
  apply (shouldRun_formula Example.σ Example.invite Example.client
           Example.message Example.author
           {| enabled := true; ignoreBots := true; ignoreSelf := true;
              ignoreOthers := false; ignoreWebhooks := true |}).
  - repeat split; vm_compute; reflexivity.
  - split; vm_compute; reflexivity.
Defined.

(** C2: a monitor whose [enabled] is [false] answers [false] to every
    argument, whatever its other properties and whatever the message is or
    holds, and changes nothing. *)
Theorem shouldRun_disabled σ this msg :
  field σ this "enabled" = VBool false →
  shouldRun (VObject this) msg σ = (Normal (VBool false), σ).
Proof.
  intros He. js_unfold. cbn -[field]. by rewrite He.
Qed.

Lemma shouldRun_disabled_witness :
  shouldRun (VObject Example.invite) VNull
    (store Example.σ Example.invite "enabled" (VBool false)) =
  (Normal (VBool false), store Example.σ Example.invite "enabled" (VBool false)).
Proof.
  apply (shouldRun_disabled
           (store Example.σ Example.invite "enabled" (VBool false))
           Example.invite VNull).
  vm_compute; reflexivity.
Defined.

(** C10: a monitor with both [ignoreSelf] and [ignoreOthers] set answers
    [false] to every message: the author is the client's user or is not. *)
Theorem shouldRun_ignoreSelf_ignoreOthers σ this client msg author cfg :
  has_config σ this cfg →
  in_scene σ this client msg author →
  ignoreSelf cfg = true →
  ignoreOthers cfg = true →
  shouldRun (VObject this) (VObject msg) σ = (Normal (VBool false), σ).
Proof.
  intros (He & Hb & Hs' & Ho' & Hw) Hscene Hs Ho.
  rewrite (shouldRun_eval _ _ _ _ _ Hscene), He, Hb, Hs', Ho', Hw, Hs, Ho.
  unfold isOther, isSelf, strict_ne. simpl.
  destruct (enabled cfg); [|done]. do 3 f_equal.
  destruct (ignoreBots cfg && isBot σ author),
    (strict_eq (field σ client "user") (VObject author)); reflexivity.
Qed.

Lemma shouldRun_ignoreSelf_ignoreOthers_witness :
  shouldRun (VObject Example.silent) (VObject Example.message) Example.σ =
    (Normal (VBool false), Example.σ).
Proof.
  apply (shouldRun_ignoreSelf_ignoreOthers Example.σ Example.silent
           Example.client Example.message Example.author
           {| enabled := true; ignoreBots := true; ignoreSelf := true;
              ignoreOthers := true; ignoreWebhooks := true |}).
  - repeat split; vm_compute; reflexivity.
  - split; vm_compute; reflexivity.
  - reflexivity.
  - reflexivity.
Defined.


(** C6: [shouldRun] is pure.  No call changes the heap, whatever it is given
    and whether it returns or throws; and on two monitors with the same
    values of the five flags, looking at two messages with the same four
    properties (bot, author is the client's user, author is not,
    webhook id), it returns the same value. *)
Theorem shouldRun_pure σ this client msg author σ' this' client' msg' author' :
  in_scene σ this client msg author →
  in_scene σ' this' client' msg' author' →
  (∀ p, p ∈ flag_fields → field σ this p = field σ' this' p) →
  isBot σ author = isBot σ' author' →
  isSelf σ client author = isSelf σ' client' author' →
  isOther σ client author = isOther σ' client' author' →
  hasWebhookID σ msg = hasWebhookID σ' msg' →
  (shouldRun (VObject this) (VObject msg) σ).1 =
    (shouldRun (VObject this') (VObject msg') σ').1 ∧
  (∀ v w : value, readonly (shouldRun v w)).
Proof.
  intros Hscene Hscene' Hflags Hbot Hself Hother Hhook.
  split; [|intros v w; apply shouldRun_readonly].
  rewrite (shouldRun_eval _ _ _ _ _ Hscene), (shouldRun_eval _ _ _ _ _ Hscene').
  simpl. rewrite Hbot, Hself, Hother, Hhook.
  rewrite !Hflags; [done|unfold flag_fields; set_solver..].
Qed.

Lemma shouldRun_pure_witness :
  (shouldRun (VObject Example.invite) (VObject Example.message) Example.σ).1 =
    (shouldRun (VObject Example.invite) (VObject Example.message)
       (store Example.σ Example.message "content" (VString "hello"))).1 ∧
  (∀ v w : value, readonly (shouldRun v w)).
Proof.
  apply (shouldRun_pure Example.σ Example.invite Example.client
           Example.message Example.author
           (store Example.σ Example.message "content" (VString "hello"))
           Example.invite Example.client Example.message Example.author).
  - split; vm_compute; reflexivity.
  - split; vm_compute; reflexivity.
  - intros p Hp. symmetry. apply field_store_ne. intros <-.
    repeat (apply elem_of_cons in Hp as [Hp|Hp]; [discriminate Hp|]).
    by apply elem_of_nil in Hp.
  - vm_compute; reflexivity.
  - vm_compute; reflexivity.
  - vm_compute; reflexivity.
  - vm_compute; reflexivity.
Defined.

(** C8: the base [run] and the default [init] do nothing: each returns
    [undefined] (for [init], a promise fulfilled with it) and leaves the
    heap as it was, whatever the monitor and the message. *)
Theorem run_init_noop (σ : heap) (this msg : value) :
  run this msg σ = (Normal VUndefined, σ) ∧
  init this σ = (Normal VUndefined, σ).
Proof. split; reflexivity. Qed.

(** C5: on a monitor (an object whose [type] is ["monitor"]), [toJSON]
    returns a new object and changes no existing one; the new object has
    the nine properties [dir], [file], [name], [type], [enabled],
    [ignoreBots], [ignoreSelf], [ignoreOthers], [ignoreWebhooks] and no
    other; its [type] is ["monitor"] and each property has the value the
    monitor's property of that name has at the call. *)
Theorem toJSON_nine_fields σ this :
  field σ this "type" = VString "monitor" →
  ∃ l o,
    toJSON (VObject this) σ = (Normal (VObject l), <[l := o]> σ) ∧
    σ !! l = None ∧
    dom o = list_to_set json_fields ∧
    o !! "type" = Some (VString "monitor") ∧
    ∀ p, p ∈ json_fields → o !! p = Some (field σ this p).
Proof.
  intros Htype. eexists _, _. split; [reflexivity|].
  split; [apply not_elem_of_dom, is_fresh|].
  split; [unfold json_fields; simpl; rewrite !dom_insert_L; set_solver|].
  split; [by rewrite <- Htype|].
  intros p Hp. unfold json_fields in Hp.
  repeat (apply elem_of_cons in Hp as [->|Hp]; [reflexivity|]).
  by apply elem_of_nil in Hp.
Qed.

Lemma toJSON_nine_fields_witness :
  ∃ l o,
    toJSON (VObject Example.invite) Example.σ =
      (Normal (VObject l), <[l := o]> Example.σ) ∧
    Example.σ !! l = None ∧
    dom o = list_to_set json_fields ∧
    o !! "type" = Some (VString "monitor") ∧
    ∀ p, p ∈ json_fields → o !! p = Some (field Example.σ Example.invite p).
Proof.
  apply (toJSON_nine_fields Example.σ Example.invite).
  vm_compute; reflexivity.
Defined.


(** The constructor completes once the defaults are found and the merge
    returns an options object; it leaves the type ["monitor"] and the name
    [options.name || file.slice(0, -3)]. *)
Lemma constructor_eval (mergeDefault : value → value → M heap value)
    (slice_method : loc → Z → Z → M heap value)
    (σ : heap) (this : loc) (client dir : value) (file : string)
    (options options' : value) (σ0 : heap) (defaults : value) (σ1 : heap)
    (merged : loc) (σ2 : heap) :
  default_arg options (alloc ∅) σ = (Normal options', σ0) →
  (client ∙ "options" ∙ "pieceDefaults" ∙ "monitors")%js σ0 =
    (Normal defaults, σ1) →
  mergeDefault defaults options' σ1 = (Normal (VObject merged), σ2) →
  ∃ σ3,
    constructor mergeDefault slice_method (VObject this) client dir (VString file) options σ
      = (Normal (), σ3) ∧
    field σ3 this "type" = VString "monitor" ∧
    field σ3 this "name" =
      (if truthy (field σ2 merged "name") then field σ2 merged "name"
       else VString (slice file 0 (-3))).
Proof.
  intros Hdef Hdefaults Hmerge.
  unfold constructor.
  rewrite (bind_normal _ _ _ _ _ Hdef), (bind_normal _ _ _ _ _ Hdefaults),
    (bind_normal _ _ _ _ _ Hmerge).
  js_unfold. cbn -[field store slice].
  rewrite !(field_store_ne _ this _ _ merged "name") by done.
  destruct (truthy (field σ2 merged "name")) eqn:Hname;
    cbn -[field store slice];
    (eexists; split; [reflexivity|]); split.
  all: try (rewrite !(field_store_ne _ this _ _ this "type") by done;
            apply field_store_eq).
  all: rewrite !(field_store_ne _ this _ _ this "name") by done;
       apply field_store_eq.
Qed.

(** C9: the name given by the constructor.  When the defaults are found and
    the merge returns an options object, the constructor completes, and the
    monitor's [name] is the merged [name] when that is truthy (a non-empty
    string in particular), and otherwise the file name without its last
    three characters: [base] for a file [base ++ ext] with [ext] of length
    three, the empty string for a file of at most three characters. *)
Theorem constructor_name (mergeDefault : value → value → M heap value)
    (slice_method : loc → Z → Z → M heap value)
    (σ : heap) (this : loc) (client dir : value) (file : string)
    (options options' : value) (σ0 : heap) (defaults : value) (σ1 : heap)
    (merged : loc) (σ2 : heap) :
  default_arg options (alloc ∅) σ = (Normal options', σ0) →
  (client ∙ "options" ∙ "pieceDefaults" ∙ "monitors")%js σ0 =
    (Normal defaults, σ1) →
  mergeDefault defaults options' σ1 = (Normal (VObject merged), σ2) →
  ∃ σ3,
    constructor mergeDefault slice_method (VObject this) client dir (VString file) options σ
      = (Normal (), σ3) ∧
    field σ3 this "name" =
      (if truthy (field σ2 merged "name") then field σ2 merged "name"
       else VString (slice file 0 (-3))) ∧
    (∀ s, field σ2 merged "name" = VString s → s ≠ ""%string →
       field σ3 this "name" = VString s) ∧
    (∀ base ext, file = base +:+ ext → String.length ext = 3%nat →
       slice file 0 (-3) = base) ∧
    ((String.length file ≤ 3)%nat → slice file 0 (-3) = ""%string).
Proof.
  intros Hdef Hdefaults Hmerge.
  destruct (constructor_eval mergeDefault slice_method σ this client dir
              file options options' σ0 defaults σ1 merged σ2
              Hdef Hdefaults Hmerge) as (σ3 & Hrun & _ & Hname).
  exists σ3. split; [done|]. split; [done|]. split; [|split].
  - intros s Hs Hne. rewrite Hname, Hs. simpl.
    destruct s; [done|reflexivity].
  - intros base ext -> Hext. by apply slice_strip_extension.
  - apply slice_short.
Qed.

Lemma constructor_name_witness :
  ∃ σ3,
    constructor Example.mergeDefault Example.slice_method
      (VObject Example.fresh_this)
      (VObject Example.client) (VString "monitors") (VString "invite.js")
      VUndefined Example.σ = (Normal (), σ3) ∧
    field σ3 Example.fresh_this "name" = VString "invite".
Proof.
  destruct (constructor_name Example.mergeDefault Example.slice_method Example.σ Example.fresh_this
              (VObject Example.client) (VString "monitors") "invite.js"
              VUndefined
              (completion_value VUndefined (alloc ∅ Example.σ).1)
              (alloc ∅ Example.σ).2
              (VObject Example.monitorDefaults)
              (alloc ∅ Example.σ).2
              11%positive
              (Example.mergeDefault (VObject Example.monitorDefaults)
                 (VObject 11%positive) (alloc ∅ Example.σ).2).2)
    as (σ3 & Hrun & Hname & _).
  - vm_compute; reflexivity.
  - vm_compute; reflexivity.
  - vm_compute; reflexivity.
  - exists σ3. split; [exact Hrun|]. rewrite Hname. vm_compute; reflexivity.
Defined.

End MonitorSpec.

(** ** The [messageDeleteBulk] handler *)

Module BulkDeleteSpec.

Import BulkDelete.

Lemma requests_for_app id t1 t2 :
  requests_for id (t1 ++ t2) = requests_for id t1 ++ requests_for id t2.
Proof. apply omap_app. Qed.

Lemma awaited_app t1 t2 : awaited t1 → awaited t2 → awaited (t1 ++ t2).
Proof. induction 1; simpl; [done|]. intros. constructor. auto. Qed.

(** With one request at a time, at most one is in flight at any moment. *)
Lemma awaited_in_flight id t :
  awaited t → ∀ t1 t2, t = t1 ++ t2 → 0 ≤ in_flight id t1 ≤ 1.
Proof.
  induction 1 as [|id' r b t Ht IH]; intros t1 t2 Heq.
  - symmetry in Heq. apply app_eq_nil in Heq as [-> _]. simpl. lia.
  - destruct t1 as [|e1 [|e2 t1]]; simplify_eq/=.
    + lia.
    + case_decide; lia.
    + specialize (IH _ _ eq_refl). case_decide; lia.
Qed.

Lemma walked_cons id id' message messages :
  walked id ((id', message) :: messages) =
    (if decide (id' = id) then
       if command_deletable message then responses message else []
     else []) ++ walked id messages.
Proof. reflexivity. Qed.

Lemma walked_absent id messages : id ∉ messages.*1 → walked id messages = [].
Proof.
  induction messages as [|[id' m'] messages IH]; [done|].
  rewrite walked_cons, fmap_cons, not_elem_of_cons. simpl. intros [Hne Hid].
  rewrite decide_False by done. by apply IH.
Qed.

(** Under distinct keys, the turn of a key is the turn of its message. *)
Lemma walked_lookup id message messages :
  NoDup messages.*1 → (id, message) ∈ messages →
  walked id messages =
    if command_deletable message then responses message else [].
Proof.
  induction messages as [|[id' m'] messages IH].
  - intros _ H. by apply elem_of_nil in H.
  - rewrite walked_cons, fmap_cons, NoDup_cons, elem_of_cons. simpl.
    intros [Hid Hnd] [Heq|Hin].
    + injection Heq as <- <-. rewrite decide_True by done.
      by rewrite walked_absent, app_nil_r.
    + rewrite decide_False; [by apply IH|].
      intros ->. apply Hid. by apply (list_elem_of_fmap_2 fst _ (id, message)).
Qed.

(** What is walked in the turns of a key is recorded on a message under
    that key whose command exists and is deletable. *)
Lemma walked_origin id messages r :
  r ∈ walked id messages →
  ∃ message, (id, message) ∈ messages ∧
             command_deletable message = true ∧ r ∈ responses message.
Proof.
  unfold walked. rewrite list_elem_of_bind.
  intros ([id' m] & Hr & Hin). case_decide as Hid; [subst id'|by inv Hr].
  destruct (command_deletable m) eqn:Hcmd; [|by inv Hr].
  by exists m.
Qed.

Section WithLibrary.

Context {World : Type}.
Variable deleted : World → handle → bool.
Variable delete : handle → M World unit.

Lemma turn_nil id s : turn deleted delete id [] s = (Normal (), s).
Proof. reflexivity. Qed.

Lemma turn_cons id r rs s :
  turn deleted delete id (r :: rs) s =
    if deleted (world s) r then turn deleted delete id rs s
    else match delete r (world s) with
         | (Normal _, w) =>
             turn deleted delete id rs
               {| world := w;
                  trace := trace s ++ [Issued id r; Settled id r true] |}
         | (Abrupt e, w) =>
             (Abrupt e,
              {| world := w;
                 trace := trace s ++ [Issued id r; Settled id r false] |})
         end.
Proof.
  unfold turn. simpl.
  unfold await_delete, emit, settle, get_deleted, throw,
    mbind, M_bind, mret, M_ret. simpl.
  destruct (deleted (world s) r); simpl; [done|].
  destruct (delete r (world s)) as [[[]|e] w]; simpl;
    by rewrite <- app_assoc.
Qed.

Lemma run_nil s : run deleted delete [] s = (Normal (), s).
Proof. reflexivity. Qed.

Lemma run_cons id message messages s :
  run deleted delete ((id, message) :: messages) s =
    if command_deletable message then
      match turn deleted delete id (responses message) s with
      | (Normal _, s') => run deleted delete messages s'
      | (Abrupt e, s') => (Abrupt e, s')
      end
    else run deleted delete messages s.
Proof.
  unfold run, turn. simpl. unfold mbind at 1, M_bind at 1.
  destruct (command_deletable message); [|done].
  by destruct (for_of _ _ s) as [[[]|e] s'].
Qed.

(** The events of the turn of one message: requests awaited one by one, all
    on behalf of that message, for responses in the order of the array. *)
Lemma turn_trace id rs s :
  ∃ t, trace (turn deleted delete id rs s).2 = trace s ++ t ∧
       awaited t ∧
       requests_for id t `sublist_of` rs ∧
       ∀ id', id' ≠ id → requests_for id' t = [].
Proof.
  revert s. induction rs as [|r rs IH]; intros s.
  - exists []. rewrite turn_nil. simpl. rewrite app_nil_r.
    repeat split; constructor.
  - rewrite turn_cons. destruct (deleted (world s) r).
    + destruct (IH s) as (t & Ht & Haw & Hsub & Hother).
      exists t. repeat split; try done. by apply sublist_cons.
    + destruct (delete r (world s)) as [[[]|e] w].
      * destruct (IH {| world := w;
                        trace := trace s ++
                                 [Issued id r; Settled id r true] |})
          as (t & Ht & Haw & Hsub & Hother).
        exists (Issued id r :: Settled id r true :: t).
        split; [by rewrite Ht; simpl; rewrite <- app_assoc|].
        split; [by constructor|]. split.
        -- simpl. rewrite decide_True by done. by apply sublist_skip.
        -- intros id' Hne. simpl. rewrite decide_False by done. auto.
      * exists [Issued id r; Settled id r false].
        split; [done|].
        split; [repeat constructor|]. split.
        -- simpl. rewrite decide_True by done.
           apply sublist_skip, sublist_nil_l.
        -- intros id' Hne. simpl. by rewrite decide_False.
Qed.

(** The events of a whole run. *)
Lemma run_trace messages s :
  ∃ t, trace (run deleted delete messages s).2 = trace s ++ t ∧
       awaited t ∧
       ∀ id, requests_for id t `sublist_of` walked id messages.
Proof.
  revert s. induction messages as [|[id0 m0] messages IH]; intros s.
  - exists []. rewrite run_nil. simpl. rewrite app_nil_r.
    repeat split; constructor.
  - rewrite run_cons. setoid_rewrite walked_cons.
    destruct (command_deletable m0) eqn:Hcmd.
    + destruct (turn_trace id0 (responses m0) s)
        as (t0 & Ht0 & Haw0 & Hsub0 & Hother0).
      destruct (turn deleted delete id0 (responses m0) s) as [[[]|e] s0];
        simpl in Ht0.
      * destruct (IH s0) as (t & Ht & Haw & Hsub).
        exists (t0 ++ t).
        split; [by rewrite Ht, Ht0, app_assoc|].
        split; [by apply awaited_app|].
        intros id. rewrite requests_for_app.
        apply sublist_app; [|apply Hsub].
        case_decide as Hid; [by subst|]. rewrite Hother0; [constructor|done].
      * exists t0. split; [done|]. split; [done|].
        intros id. apply sublist_inserts_r.
        case_decide as Hid; [by subst|]. rewrite Hother0; [constructor|done].
    + destruct (IH s) as (t & Ht & Haw & Hsub).
      exists t. split; [done|]. split; [done|].
      intros id. by case_decide.
Qed.

(** Every request of a run is for a response of a message of the batch
    whose command exists and is deletable. *)
Lemma run_issued_origin messages s id r :
  Issued id r ∈ trace (run deleted delete messages s).2 →
  Issued id r ∈ trace s ∨
  ∃ message, (id, message) ∈ messages ∧
             command_deletable message = true ∧ r ∈ responses message.
Proof.
  destruct (run_trace messages s) as (t & -> & _ & Hsub).
  intros [Hin|Hin]%elem_of_app; [by left|right].
  apply walked_origin. apply elem_of_sublist with (requests_for id t);
    [|apply Hsub].
  unfold requests_for. apply list_elem_of_omap.
  exists (Issued id r). split; [done|]. by rewrite decide_True.
Qed.

(** *** Runs in which no request is rejected *)

Lemma filter_agree {A} (P Q : A → Prop) `{∀ x, Decision (P x)}
    `{∀ x, Decision (Q x)} (l : list A) :
  (∀ x, x ∈ l → P x ↔ Q x) → filter P l = filter Q l.
Proof.
  induction l as [|x l IH]; intros HPQ; [done|].
  rewrite !filter_cons.
  rewrite IH by (intros y Hy; apply HPQ; by right).
  destruct (decide (P x)) as [HP|HP], (decide (Q x)) as [HQ|HQ];
    try done; exfalso; apply HPQ in HP || apply HPQ in HQ; try done; by left.
Qed.

Lemma walked_responses id messages r :
  r ∈ walked id messages → r ∈ messages.*2 ≫= responses.
Proof.
  induction messages as [|[id' m'] messages IH]; [done|].
  rewrite walked_cons, fmap_cons, bind_cons, !elem_of_app. simpl.
  intros [Hr|Hr]; [left|right; by apply IH].
  case_decide; [|by apply elem_of_nil in Hr].
  destruct (command_deletable m'); [done|by apply elem_of_nil in Hr].
Qed.

Section Frame.

(** Awaiting the deletion of one message does not change the [deleted] mark
    of another. *)
Hypothesis delete_frame : ∀ r w w',
  delete r w = (Normal (), w') →
  ∀ r', r' ≠ r → deleted w' r' = deleted w r'.

Lemma turn_requests id rs s s' :
  NoDup rs →
  turn deleted delete id rs s = (Normal (), s') →
  ∃ t, trace s' = trace s ++ t ∧
       requests_for id t = filter (λ r, deleted (world s) r = false) rs ∧
       (∀ id', id' ≠ id → requests_for id' t = []) ∧
       ∀ r', r' ∉ rs → deleted (world s') r' = deleted (world s) r'.
Proof.
  revert s. induction rs as [|r rs IH]; intros s Hnd.
  - rewrite turn_nil. intros [= <-]. exists []. by rewrite app_nil_r.
  - apply NoDup_cons in Hnd as [Hr Hnd]. rewrite turn_cons, filter_cons.
    destruct (deleted (world s) r) eqn:Hdel.
    + intros Hturn. destruct (IH s Hnd Hturn) as (t & Ht & Hreq & Hother & Hfr).
      exists t. rewrite decide_False by done. repeat split; try done.
      intros r' [_ Hr']%not_elem_of_cons. by apply Hfr.
    + destruct (delete r (world s)) as [[[]|e] w] eqn:Hcall; [|done].
      intros Hturn.
      destruct (IH _ Hnd Hturn) as (t & Ht & Hreq & Hother & Hfr).
      simpl in *. exists (Issued id r :: Settled id r true :: t).
      split; [by rewrite Ht, <- app_assoc|].
      simpl. rewrite ?decide_True by done.
      split; [|split].
      * rewrite Hreq. f_equal. apply filter_agree. intros x Hx.
        rewrite (delete_frame _ _ _ Hcall); [done|]. by intros ->.
      * intros id' Hne. rewrite decide_False by done. auto.
      * intros r' [Hne Hr']%not_elem_of_cons.
        rewrite Hfr by done. by apply (delete_frame _ _ _ Hcall).
Qed.

Lemma run_requests messages s s' :
  NoDup (messages.*2 ≫= responses) →
  run deleted delete messages s = (Normal (), s') →
  ∃ t, trace s' = trace s ++ t ∧
       (∀ id, requests_for id t =
              filter (λ r, deleted (world s) r = false) (walked id messages)) ∧
       ∀ r', r' ∉ messages.*2 ≫= responses →
             deleted (world s') r' = deleted (world s) r'.
Proof.
  revert s. induction messages as [|[id0 m0] messages IH]; intros s.
  - rewrite run_nil. intros _ [= <-]. exists []. by rewrite app_nil_r.
  - rewrite fmap_cons, bind_cons, run_cons. setoid_rewrite walked_cons.
    cbn [snd]. intros (Hnd0 & Hdisj & Hnd)%NoDup_app.
    destruct (command_deletable m0).
    + destruct (turn deleted delete id0 (responses m0) s)
        as [[[]|e] s0] eqn:Hturn; [|done].
      intros Hrun.
      destruct (turn_requests _ _ _ _ Hnd0 Hturn)
        as (t0 & Ht0 & Hreq0 & Hother0 & Hfr0).
      destruct (IH _ Hnd Hrun) as (t & Ht & Hreq & Hfr).
      exists (t0 ++ t). split; [by rewrite Ht, Ht0, app_assoc|]. split.
      * intros id. rewrite requests_for_app, filter_app, Hreq. f_equal.
        -- case_decide as Hid; [by subst|]. by rewrite Hother0.
        -- apply filter_agree. intros r Hr. rewrite Hfr0; [done|].
           intros Hr0. by apply (Hdisj r), walked_responses with id.
      * intros r' [Hr0 Hr']%not_elem_of_app. rewrite Hfr, Hfr0; done.
    + intros Hrun. destruct (IH _ Hnd Hrun) as (t & Ht & Hreq & Hfr).
      exists t. split; [done|]. split.
      * intros id. rewrite Hreq. by case_decide.
      * intros r' [Hr0 Hr']%not_elem_of_app. by apply Hfr.
Qed.

End Frame.

End WithLibrary.

(** A run on four messages, the response 10 already deleted and the
    deletion of the response 12 rejected: the requests stop at the
    rejection, and the messages 2 and 3 would have had none anyway. *)
Example run_four_messages :
  let r := run Example.deleted (Example.delete {[12%positive]})
             Example.four_messages (start {[10%positive]}) in
  r.1 = Abrupt (Thrown (VString "DiscordAPIError")) ∧
  trace r.2 = [Issued "1" 11%positive; Settled "1" 11%positive true;
               Issued "1" 12%positive; Settled "1" 12%positive false].
Proof. split; vm_compute; reflexivity. Qed.

(** C3, as stated, fails when a request is rejected: with one message of a
    deletable command and two responses, neither marked deleted, and a
    library that rejects the deletion of the first, the rejection is thrown
    at the [await], the loop ends, and no request is issued for the second
    response. *)
Lemma run_requests_rejected_counterexample :
  let messages := Example.two_responses in
  let message := {| command := Example.cmd true;
                    responses := [10; 11]%positive |} in
  let run1 := run Example.deleted (Example.delete {[10%positive]})
                messages (start ∅) in
  ("1"%string, message) ∈ messages ∧
  command message = Some {| deletable := true |} ∧
  11%positive ∈ responses message ∧
  Example.deleted ∅ 11%positive = false ∧
  requests_for "1" (trace run1.2) = [10%positive] ∧
  requests_for "1" (trace run1.2) ≠
    filter (λ r, Example.deleted ∅ r = false) (responses message).
Proof.
  repeat split; try (vm_compute; reflexivity).
  - apply list_elem_of_singleton. reflexivity.
  - right. left.
  - vm_compute. discriminate.
Qed.

(** C3, amended: in a run that is not cut short by a rejected request, on a
    collection with distinct keys in which no response is recorded twice,
    and with a library in which the deletion of one message leaves the
    [deleted] marks of the others alone, the requests issued for a message
    whose command exists and is deletable are, in order, exactly its
    responses that were not marked deleted. *)
Theorem run_requests_pending {World : Type} (deleted : World → handle → bool)
    (delete : handle → M World unit) (messages : list (snowflake * Message))
    (w : World) (id : snowflake) (message : Message) (c : Command) :
  (∀ r w w', delete r w = (Normal (), w') →
     ∀ r', r' ≠ r → deleted w' r' = deleted w r') →
  NoDup messages.*1 →
  NoDup (messages.*2 ≫= responses) →
  (run deleted delete messages (start w)).1 = Normal () →
  (id, message) ∈ messages →
  command message = Some c →
  deletable c = true →
  requests_for id (trace (run deleted delete messages (start w)).2) =
    filter (λ r, deleted w r = false) (responses message).
Proof.
  intros Hframe Hkeys Hnd Hok Hin Hcmd Hdel.
  destruct (run deleted delete messages (start w)) as [c' s'] eqn:Hrun.
  simpl in Hok. subst c'.
  destruct (run_requests deleted delete Hframe _ _ _ Hnd Hrun)
    as (t & Ht & Hreq & _).
  simpl in *. rewrite Ht, Hreq, (walked_lookup _ _ _ Hkeys Hin).
  unfold command_deletable. by rewrite Hcmd, Hdel.
Qed.

Lemma run_requests_pending_witness :
  requests_for "1"
    (trace (run Example.deleted (Example.delete ∅) Example.two_responses
              (start {[10%positive]})).2) = [11%positive].
Proof.
  etrans;
    [apply (run_requests_pending Example.deleted (Example.delete ∅)
              Example.two_responses {[10%positive]} "1"
              {| command := Example.cmd true; responses := [10; 11]%positive |}
              {| deletable := true |})
    |vm_compute; reflexivity].
  - intros r w w' Hcall r' Hne. unfold Example.delete in Hcall.
    rewrite decide_False in Hcall by apply not_elem_of_empty.
    injection Hcall as <-. unfold Example.deleted.
    rewrite (bool_decide_ext (r' ∈ {[r]} ∪ w) (r' ∈ w)); [reflexivity|].
    rewrite elem_of_union, elem_of_singleton.
    split; [intros [?|?]; [congruence|assumption]|intros ?; right; assumption].
  - apply (bool_decide_unpack _). vm_compute. exact I.
  - apply (bool_decide_unpack _). vm_compute. exact I.
  - vm_compute. reflexivity.
  - apply list_elem_of_singleton. reflexivity.
  - reflexivity.
  - reflexivity.
Defined.

(** C4, as stated, fails when a response is recorded on two messages: with
    a message that ran no command and a message of a deletable command that
    both record the response 10, the handler skips the first message and
    requests the deletion of 10 in the turn of the second. *)
Lemma run_skips_undeletable_shared_counterexample :
  let messages := Example.shared_response in
  let message := {| command := None; responses := [10%positive] |} in
  ("1"%string, message) ∈ messages ∧
  command message = None ∧
  10%positive ∈ responses message ∧
  Issued "2" 10%positive ∈
    trace (run Example.deleted (Example.delete ∅) messages (start ∅)).2.
Proof.
  repeat split.
  - left.
  - left.
  - vm_compute. left.
Qed.

(** C4, amended: whatever the library does, when a message of the batch has
    no command, or a command that is not deletable, no delete request is
    issued, in the turn of any message, for a response of it that no other
    entry of the batch records. *)
Theorem run_skips_undeletable {World : Type} (deleted : World → handle → bool)
    (delete : handle → M World unit) (messages : list (snowflake * Message))
    (w : World) (id : snowflake) (message : Message) (r : handle) :
  (id, message) ∈ messages →
  command message = None ∨
    (∃ c, command message = Some c ∧ deletable c = false) →
  r ∈ responses message →
  (∀ id' message', (id', message') ∈ messages →
     (id', message') ≠ (id, message) → r ∉ responses message') →
  ∀ id', Issued id' r ∉ trace (run deleted delete messages (start w)).2.
Proof.
  intros Hin Hcmd Hr Halone id' Hissued.
  apply run_issued_origin in Hissued
    as [Hnil|(message' & Hin' & Hcmd' & Hr')];
    [by apply elem_of_nil in Hnil|].
  apply (Halone id' message' Hin'); [|done].
  intros [= -> ->]. unfold command_deletable in Hcmd'.
  destruct Hcmd as [Hc|(c & Hc & Hd)]; rewrite Hc in Hcmd'; congruence.
Qed.

Lemma run_skips_undeletable_witness :
  Issued "4" 14%positive ∉
    trace (run Example.deleted (Example.delete ∅) Example.four_messages
             (start ∅)).2.
Proof.
  refine (run_skips_undeletable Example.deleted (Example.delete ∅)
            Example.four_messages ∅ "3"
            {| command := Example.cmd false; responses := [14%positive] |}
            14%positive _ _ _ _ "4"%string).
  - do 2 right. left.
  - right. exists {| deletable := false |}. split; reflexivity.
  - left.
  - intros id' message' Hin Hne. unfold Example.four_messages in Hin.
    repeat (apply elem_of_cons in Hin as [Hin|Hin];
            [injection Hin as -> ->;
             first [by destruct Hne
                   |intros Hr; vm_compute in Hr;
                    repeat (apply elem_of_cons in Hr as [Hr|Hr];
                            [discriminate Hr|]);
                    by apply elem_of_nil in Hr]|]).
    by apply elem_of_nil in Hin.
Defined.

(** C7: whatever the library does, every delete request of a run is
    followed at once by its own settlement, so the next request is issued
    only after the awaited one has settled and at no moment are two
    requests of a message in flight; and the requests of a message are
    issued in the order of its responses array. *)
Theorem run_awaits_in_order {World : Type} (deleted : World → handle → bool)
    (delete : handle → M World unit) (messages : list (snowflake * Message))
    (w : World) (id : snowflake) (message : Message) :
  NoDup messages.*1 →
  (id, message) ∈ messages →
  let t := trace (run deleted delete messages (start w)).2 in
  awaited t ∧
  (∀ t1 t2, t = t1 ++ t2 → 0 ≤ in_flight id t1 ≤ 1) ∧
  requests_for id t `sublist_of` responses message.
Proof.
  intros Hkeys Hin.
  destruct (run_trace deleted delete messages (start w)) as (t & Ht & Haw & Hsub).
  simpl in *. rewrite Ht. split; [done|].
  split; [by apply awaited_in_flight|].
  specialize (Hsub id). rewrite (walked_lookup _ _ _ Hkeys Hin) in Hsub.
  destruct (command_deletable message); [done|].
  apply sublist_nil_r in Hsub as ->. apply sublist_nil_l.
Qed.

Lemma run_awaits_in_order_witness :
  let t := trace (run Example.deleted (Example.delete {[12%positive]})
                    Example.four_messages (start {[10%positive]})).2 in
  awaited t ∧
  (∀ t1 t2, t = t1 ++ t2 → 0 ≤ in_flight "1" t1 ≤ 1) ∧
  requests_for "1" t `sublist_of` [10; 11; 12]%positive.
Proof.
  apply (run_awaits_in_order Example.deleted (Example.delete {[12%positive]})
           Example.four_messages {[10%positive]} "1"
           {| command := Example.cmd true;
              responses := [10; 11; 12]%positive |}).
  - apply (bool_decide_unpack _). vm_compute. exact I.
  - left.
Defined.

End BulkDeleteSpec.

(** ** More on [Monitor]: untyped flags, errors, the constructor *)

Module MonitorLaws.

Import Monitor JsFacts.

Ltac js_unfold :=
  unfold shouldRun, toJSON, member, js_and, js_or, js_not, js_seq, js_sne,
    val, get_prop, set_prop, call_slice, throw, mbind, mret, M_bind, M_ret;
  unfold strict_ne.

Lemma elem_of_ignore_fields (P : string → Prop) :
  (∀ p, p ∈ ignore_fields → P p) →
  P "ignoreBots" ∧ P "ignoreSelf" ∧ P "ignoreOthers" ∧ P "ignoreWebhooks".
Proof.
  intros H. repeat split; apply H; unfold ignore_fields;
    repeat first [apply list_elem_of_here | apply list_elem_of_further].
Qed.

Ltac js_cases :=
  repeat first
    [ progress (cbn -[field strict_eq store slice])
    | match goal with
      | |- context [truthy (field ?s ?l ?p)] =>
          destruct (truthy (field s l p)) eqn:?
      end ].

(** X1: The flags need not be booleans.  On a monitor with a client and a
    message with an author, [shouldRun] always completes; its answer is
    truthy exactly when the formula holds of the truthiness of the flags;
    it is a boolean when [enabled] is truthy, and otherwise it is the value
    of [enabled] itself ([undefined], [null], [0], ...), not [false]. *)
Theorem shouldRun_truthiness σ this client msg author :
  in_scene σ this client msg author →
  ∃ v,
    shouldRun (VObject this) (VObject msg) σ = (Normal v, σ) ∧
    truthy v =
      truthy (field σ this "enabled") &&
      negb (truthy (field σ this "ignoreBots") && isBot σ author) &&
      negb (truthy (field σ this "ignoreSelf") && isSelf σ client author) &&
      negb (truthy (field σ this "ignoreOthers") && isOther σ client author) &&
      negb (truthy (field σ this "ignoreWebhooks") && hasWebhookID σ msg) ∧
    (truthy (field σ this "enabled") = true → ∃ b, v = VBool b) ∧
    (truthy (field σ this "enabled") = false → v = field σ this "enabled").
Proof.
  intros Hscene. eexists. split; [by apply MonitorSpec.shouldRun_eval|].
  destruct (truthy (field σ this "enabled")) eqn:He.
  - split; [done|]. split; [by eexists|done].
  - split; [by rewrite He|]. split; [done|done].
Qed.

Lemma shouldRun_truthiness_witness :
  ∃ v,
    shouldRun (VObject Example.fresh_this) (VObject Example.message)
      (store Example.σ Example.fresh_this "client" (VObject Example.client)) =
      (Normal v,
       store Example.σ Example.fresh_this "client" (VObject Example.client)) ∧
    v = VUndefined.
Proof.
  destruct (shouldRun_truthiness
              (store Example.σ Example.fresh_this "client"
                 (VObject Example.client))
              Example.fresh_this Example.client Example.message
              Example.author) as (v & Hrun & _ & _ & Hv).
  - split; vm_compute; reflexivity.
  - exists v. split; [exact Hrun|]. rewrite Hv; vm_compute; reflexivity.
Defined.

(** X2: A monitor that is enabled and has no ignore flag set answers [true] to
    any argument at all, [null] and [undefined] included: the message is
    never looked at. *)
Theorem shouldRun_no_filter σ this (msg : value) :
  truthy (field σ this "enabled") = true →
  (∀ p, p ∈ ignore_fields → truthy (field σ this p) = false) →
  shouldRun (VObject this) msg σ = (Normal (VBool true), σ).
Proof.
  intros He Hflags.
  apply (elem_of_ignore_fields (λ p, truthy (field σ this p) = false))
    in Hflags as (Hb & Hs & Ho & Hw).
  js_unfold. js_cases; congruence.
Qed.

Lemma shouldRun_no_filter_witness :
  shouldRun (VObject Example.fresh_this) VNull
    (store Example.σ Example.fresh_this "enabled" (VString "yes")) =
  (Normal (VBool true),
   store Example.σ Example.fresh_this "enabled" (VString "yes")).
Proof.
  apply (shouldRun_no_filter
           (store Example.σ Example.fresh_this "enabled" (VString "yes"))
           Example.fresh_this VNull).
  - vm_compute; reflexivity.
  - intros p Hp. unfold ignore_fields in Hp.
    repeat (apply elem_of_cons in Hp as [->|Hp]; [vm_compute; reflexivity|]).
    by apply elem_of_nil in Hp.
Defined.

(** X3: The bot test reads [msg.author.bot]: on an enabled monitor that ignores
    bots, a message that is [null] or [undefined], or whose author is,
    makes [shouldRun] throw a [TypeError]; the heap is as before. *)
Theorem shouldRun_author_missing σ this (msg : value) :
  truthy (field σ this "enabled") = true →
  truthy (field σ this "ignoreBots") = true →
  nullish msg = true ∨
    (∃ m, msg = VObject m ∧ nullish (field σ m "author") = true) →
  shouldRun (VObject this) msg σ = (Abrupt TypeError, σ).
Proof.
  intros He Hb Hmsg. js_unfold. cbn -[field strict_eq].
  rewrite He. cbn -[field strict_eq]. rewrite Hb. cbn -[field strict_eq].
  destruct Hmsg as [Hmsg|(m & -> & Hauthor)].
  - by destruct msg.
  - cbn -[field strict_eq]. by destruct (field σ m "author").
Qed.

Lemma shouldRun_author_missing_witness :
  shouldRun (VObject Example.invite) (VObject Example.fresh_this) Example.σ =
    (Abrupt TypeError, Example.σ).
Proof.
  apply (shouldRun_author_missing Example.σ Example.invite
           (VObject Example.fresh_this)).
  - vm_compute; reflexivity.
  - vm_compute; reflexivity.
  - right. exists Example.fresh_this. split; [reflexivity|].
    vm_compute; reflexivity.
Defined.

Lemma in_scene_store σ this client msg author l p x :
  p ∈ flag_fields →
  in_scene σ this client msg author →
  in_scene (store σ l p x) this client msg author.
Proof.
  intros Hp [Hc Ha]. unfold flag_fields in Hp.
  split; (rewrite field_store_ne; [done|]); intros ->;
    repeat (apply elem_of_cons in Hp as [Hp|Hp]; [discriminate Hp|]);
    by apply elem_of_nil in Hp.
Qed.

(** X4: Setting an ignore flag can only silence a monitor: a message that the
    monitor accepts once the flag is set was accepted before, whatever the
    flag's earlier value. *)
Theorem shouldRun_ignore_antitone σ this client msg author p :
  in_scene σ this client msg author →
  p ∈ ignore_fields →
  (shouldRun (VObject this) (VObject msg) (store σ this p (VBool true))).1 =
    Normal (VBool true) →
  (shouldRun (VObject this) (VObject msg) σ).1 = Normal (VBool true).
Proof.
  intros Hscene Hp.
  assert (in_scene (store σ this p (VBool true)) this client msg author)
    as Hscene'.
  { apply in_scene_store; [|done]. unfold ignore_fields in Hp.
    unfold flag_fields. by right. }
  rewrite (MonitorSpec.shouldRun_eval _ _ _ _ _ Hscene'),
    (MonitorSpec.shouldRun_eval _ _ _ _ _ Hscene).
  unfold isBot, isSelf, isOther, hasWebhookID, strict_ne, ignore_fields in *.
  repeat (apply elem_of_cons in Hp as [->|Hp]);
    [..|by apply elem_of_nil in Hp];
    rewrite field_store_eq; rewrite !field_store_ne by done; simpl;
    destruct (truthy (field σ this "enabled")) eqn:He;
    try (intros [= Hv]; rewrite Hv in He; discriminate He);
    destruct (truthy (field σ this "ignoreBots")),
      (truthy (field σ author "bot")),
      (truthy (field σ this "ignoreSelf")),
      (truthy (field σ this "ignoreOthers")),
      (strict_eq (field σ client "user") (VObject author)),
      (truthy (field σ this "ignoreWebhooks")),
      (truthy (field σ msg "webhookID")); simpl; congruence.
Qed.

Lemma shouldRun_ignore_antitone_witness :
  (shouldRun (VObject Example.invite) (VObject Example.message)
     (store Example.σ Example.invite "ignoreWebhooks" (VBool false))).1 =
    Normal (VBool true).
Proof.
  apply (shouldRun_ignore_antitone
           (store Example.σ Example.invite "ignoreWebhooks" (VBool false))
           Example.invite Example.client Example.message Example.author
           "ignoreWebhooks").
  - split; reflexivity.
  - unfold ignore_fields. do 3 right. left.
  - reflexivity.
Defined.

(** *** The constructor *)

Lemma obj_at_store_ne σ l p x l' :
  l ≠ l' → obj_at (store σ l p x) l' = obj_at σ l'.
Proof. intros Hl. unfold obj_at, store. by rewrite lookup_insert_ne. Qed.

Section Constructor.

Variable mergeDefault : value → value → M heap value.
Variable slice_method : loc → Z → Z → M heap value.

(** The arguments of a call, the heap [σ] it starts in, and what the first
    two steps give: the options after the parameter default, and the
    defaults found under the client. *)
Variables (σ : heap) (this : loc) (client dir file options : value).
Variables (options' : value) (σ0 : heap) (defaults : value) (σ1 : heap).

(** The first two steps complete. *)
Local Abbreviation prologue :=
  (default_arg options (alloc ∅) σ = (Normal options', σ0) ∧
   (client ∙ "options" ∙ "pieceDefaults" ∙ "monitors")%js σ0 =
     (Normal defaults, σ1)).

Lemma constructor_merged (merged : loc) (σ2 : heap) (name : value) :
  prologue →
  mergeDefault defaults options' σ1 = (Normal (VObject merged), σ2) →
  truthy (field σ2 merged "name") = true ∧ name = field σ2 merged "name" ∨
  truthy (field σ2 merged "name") = false ∧
    (∃ s, file = VString s ∧ name = VString (slice s 0 (-3))) →
  ∃ σ3,
    constructor mergeDefault slice_method (VObject this) client dir file options σ =
      (Normal (), σ3) ∧
    field σ3 this "client" = client ∧
    field σ3 this "dir" = dir ∧
    field σ3 this "file" = file ∧
    field σ3 this "name" = name ∧
    field σ3 this "type" = VString "monitor" ∧
    (∀ p, p ∈ flag_fields → field σ3 this p = field σ2 merged p) ∧
    (∀ l, l ≠ this → obj_at σ3 l = obj_at σ2 l).
Proof.
  intros [Hoptions Hdefaults] Hmerge Hname. unfold constructor.
  rewrite (bind_normal _ _ _ _ _ Hoptions), (bind_normal _ _ _ _ _ Hdefaults),
    (bind_normal _ _ _ _ _ Hmerge).
  js_unfold. cbn -[field store slice].
  rewrite !(field_store_ne _ this _ _ merged "name") by done.
  destruct Hname as [[Ht ->]|[Ht (s & -> & ->)]]; rewrite Ht;
    cbn -[field store slice];
    rewrite ?(field_store_ne _ this _ _ merged "enabled") by done;
    rewrite ?(field_store_ne _ this _ _ merged "ignoreBots") by done;
    rewrite ?(field_store_ne _ this _ _ merged "ignoreSelf") by done;
    rewrite ?(field_store_ne _ this _ _ merged "ignoreOthers") by done;
    rewrite ?(field_store_ne _ this _ _ merged "ignoreWebhooks") by done;
    (eexists; split; [reflexivity|]);
    repeat split.
  all: try (rewrite ?field_store_ne by done; apply field_store_eq).
  all: try (intros l Hl; rewrite !obj_at_store_ne by done; reflexivity).
  all: intros p Hp; unfold flag_fields in Hp;
    repeat (apply elem_of_cons in Hp as [->|Hp];
            [rewrite ?field_store_ne by done; apply field_store_eq|]);
    by apply elem_of_nil in Hp.
Qed.

(** X5: The constructor on a file name that is a string: it completes, stores
    the client, the directory and the file as given, sets the type to
    ["monitor"], takes each of the five flags from the merged options, names
    the monitor after the merged [name] or else after the file, and changes
    no other object than [this]. *)
Theorem constructor_fields (f : string) (merged : loc) (σ2 : heap) :
  prologue →
  file = VString f →
  mergeDefault defaults options' σ1 = (Normal (VObject merged), σ2) →
  ∃ σ3,
    constructor mergeDefault slice_method (VObject this) client dir file options σ =
      (Normal (), σ3) ∧
    field σ3 this "client" = client ∧
    field σ3 this "dir" = dir ∧
    field σ3 this "file" = VString f ∧
    field σ3 this "type" = VString "monitor" ∧
    field σ3 this "name" =
      (if truthy (field σ2 merged "name") then field σ2 merged "name"
       else VString (slice f 0 (-3))) ∧
    (∀ p, p ∈ flag_fields → field σ3 this p = field σ2 merged p) ∧
    (∀ l, l ≠ this → obj_at σ3 l = obj_at σ2 l).
Proof.
  intros Hpro Hfile Hmerge.
  destruct (constructor_merged merged σ2
              (if truthy (field σ2 merged "name") then field σ2 merged "name"
               else VString (slice f 0 (-3))) Hpro Hmerge)
    as (σ3 & Hrun & Hc & Hd & Hf & Hn & Ht & Hflags & Hframe).
  { destruct (truthy (field σ2 merged "name")); [by left|right].
    split; [done|]. by exists f. }
  exists σ3. rewrite Hfile in Hf. done.
Qed.

(** X6: With a truthy merged [name] the file name is never sliced: the
    constructor completes on a [file] of any type, keeps it as given, and
    names the monitor after the options. *)
Theorem constructor_named (merged : loc) (σ2 : heap) :
  prologue →
  mergeDefault defaults options' σ1 = (Normal (VObject merged), σ2) →
  truthy (field σ2 merged "name") = true →
  ∃ σ3,
    constructor mergeDefault slice_method (VObject this) client dir file options σ =
      (Normal (), σ3) ∧
    field σ3 this "name" = field σ2 merged "name" ∧
    field σ3 this "file" = file.
Proof.
  intros Hpro Hmerge Hname.
  destruct (constructor_merged merged σ2 (field σ2 merged "name") Hpro Hmerge)
    as (σ3 & Hrun & _ & _ & Hf & Hn & _); [by left|].
  by exists σ3.
Qed.

(** X7: Without a truthy merged [name], a [file] that is a primitive value
    other than a string ([undefined], [null], a boolean, a number) makes
    the constructor throw a [TypeError] half-way, at [file.slice(0, -3)]:
    the client, the directory and the file are already stored, the name,
    the type and the flags are not. *)
Theorem constructor_unnamed_primitive_file (merged : loc) (σ2 : heap) :
  prologue →
  mergeDefault defaults options' σ1 = (Normal (VObject merged), σ2) →
  truthy (field σ2 merged "name") = false →
  primitive file = true →
  (∀ f, file ≠ VString f) →
  ∃ σ3,
    constructor mergeDefault slice_method (VObject this) client dir file
      options σ = (Abrupt TypeError, σ3) ∧
    field σ3 this "client" = client ∧
    field σ3 this "dir" = dir ∧
    field σ3 this "file" = file ∧
    (∀ p, p ∈ "name" :: "type" :: flag_fields →
          field σ3 this p = field σ2 this p).
Proof.
  intros [Hoptions Hdefaults] Hmerge Hname. unfold constructor.
  rewrite (bind_normal _ _ _ _ _ Hoptions), (bind_normal _ _ _ _ _ Hdefaults),
    (bind_normal _ _ _ _ _ Hmerge).
  js_unfold. cbn -[field store slice].
  rewrite !(field_store_ne _ this _ _ merged "name") by done.
  rewrite Hname.
  destruct file as [| |b|n| |f|l]; intros Hprim Hfile;
    [..|by destruct (Hfile f)|discriminate Hprim];
    cbn -[field store slice];
    (eexists; split; [reflexivity|]); repeat split.
  all: try (rewrite ?field_store_ne by done; apply field_store_eq).
  all: intros p Hp; unfold flag_fields in Hp;
    repeat (apply elem_of_cons in Hp as [->|Hp];
            [by rewrite !field_store_ne by done|]);
    by apply elem_of_nil in Hp.
Qed.

(** X8: An exception of the merge is the constructor's: it is thrown on, and
    nothing has been stored in [this]. *)
Theorem constructor_merge_throws (e : exn) (σ2 : heap) :
  prologue →
  mergeDefault defaults options' σ1 = (Abrupt e, σ2) →
  constructor mergeDefault slice_method (VObject this) client dir file options σ =
    (Abrupt e, σ2).
Proof.
  intros [Hoptions Hdefaults] Hmerge. unfold constructor.
  rewrite (bind_normal _ _ _ _ _ Hoptions), (bind_normal _ _ _ _ _ Hdefaults).
  unfold mbind at 1, M_bind at 1. by rewrite Hmerge.
Qed.

End Constructor.

Lemma constructor_fields_witness :
  ∃ σ3,
    constructor Example.mergeDefault Example.slice_method
      (VObject Example.fresh_this)
      (VObject Example.client) (VString "monitors") (VString "invite.js")
      VUndefined Example.σ = (Normal (), σ3) ∧
    field σ3 Example.fresh_this "ignoreOthers" = VBool true ∧
    field σ3 Example.fresh_this "ignoreWebhooks" = VUndefined.
Proof.
  destruct (constructor_fields Example.mergeDefault Example.slice_method Example.σ
              Example.fresh_this (VObject Example.client)
              (VString "monitors") (VString "invite.js") VUndefined
              (VObject 11%positive) (alloc ∅ Example.σ).2
              (VObject Example.monitorDefaults) (alloc ∅ Example.σ).2
              "invite.js" 11%positive
              (Example.mergeDefault (VObject Example.monitorDefaults)
                 (VObject 11%positive) (alloc ∅ Example.σ).2).2)
    as (σ3 & Hrun & _ & _ & _ & _ & _ & Hflags & _).
  - split; reflexivity.
  - reflexivity.
  - reflexivity.
  - exists σ3. split; [exact Hrun|]. unfold flag_fields in Hflags. split.
    + rewrite Hflags by (do 3 right; left). vm_compute; reflexivity.
    + rewrite Hflags by (do 4 right; left). vm_compute; reflexivity.
Defined.

Lemma constructor_named_witness :
  ∃ σ3,
    constructor Example.mergeDefault Example.slice_method
      (VObject Example.fresh_this)
      (VObject Example.client) (VString "monitors") (VNumber 7)
      (VObject Example.named_options) Example.σ_named = (Normal (), σ3) ∧
    field σ3 Example.fresh_this "name" = VString "greeter" ∧
    field σ3 Example.fresh_this "file" = VNumber 7.
Proof.
  destruct (constructor_named Example.mergeDefault Example.slice_method Example.σ_named
              Example.fresh_this (VObject Example.client)
              (VString "monitors") (VNumber 7)
              (VObject Example.named_options)
              (VObject Example.named_options) Example.σ_named
              (VObject Example.monitorDefaults) Example.σ_named
              Example.named_options
              (Example.mergeDefault (VObject Example.monitorDefaults)
                 (VObject Example.named_options) Example.σ_named).2)
    as (σ3 & Hrun & Hname & Hfile).
  - split; reflexivity.
  - reflexivity.
  - reflexivity.
  - exists σ3. split; [exact Hrun|]. split; [|exact Hfile].
    rewrite Hname. vm_compute; reflexivity.
Defined.

Lemma constructor_unnamed_primitive_file_witness :
  ∃ σ3,
    constructor Example.mergeDefault Example.slice_method
      (VObject Example.fresh_this)
      (VObject Example.client) (VString "monitors") (VNumber 42)
      VUndefined Example.σ = (Abrupt TypeError, σ3) ∧
    field σ3 Example.fresh_this "dir" = VString "monitors" ∧
    field σ3 Example.fresh_this "file" = VNumber 42 ∧
    field σ3 Example.fresh_this "type" = VUndefined.
Proof.
  destruct (constructor_unnamed_primitive_file Example.mergeDefault
              Example.slice_method
              Example.σ Example.fresh_this (VObject Example.client)
              (VString "monitors") (VNumber 42) VUndefined
              (VObject 11%positive) (alloc ∅ Example.σ).2
              (VObject Example.monitorDefaults) (alloc ∅ Example.σ).2
              11%positive
              (Example.mergeDefault (VObject Example.monitorDefaults)
                 (VObject 11%positive) (alloc ∅ Example.σ).2).2)
    as (σ3 & Hrun & _ & Hdir & Hfile & Hrest).
  - split; reflexivity.
  - reflexivity.
  - reflexivity.
  - reflexivity.
  - discriminate.
  - exists σ3. split; [exact Hrun|]. split; [exact Hdir|].
    split; [exact Hfile|].
    rewrite Hrest by (right; left). reflexivity.
Defined.

Lemma constructor_merge_throws_witness :
  constructor (λ _ _, throw (Thrown (VString "RangeError")))
    Example.slice_method (VObject Example.fresh_this) (VObject Example.client)
    (VString "monitors") (VString "invite.js")
    (VObject Example.named_options) Example.σ_named =
  (Abrupt (Thrown (VString "RangeError")), Example.σ_named).
Proof.
  apply (constructor_merge_throws
           (λ _ _, throw (Thrown (VString "RangeError")))
           Example.slice_method Example.σ_named
           Example.fresh_this (VObject Example.client) (VString "monitors")
           (VString "invite.js") (VObject Example.named_options)
           (VObject Example.named_options) Example.σ_named
           (VObject Example.monitorDefaults) Example.σ_named).
  - split; reflexivity.
  - reflexivity.
Defined.

(** X9: The defaults are read from [client.options.pieceDefaults.monitors]
    before anything else: on a client without [options] the constructor
    throws a [TypeError], whatever the merge function is, and the heap is
    as the parameter default left it. *)
Theorem constructor_client_without_options
    (mergeDefault : value → value → M heap value)
    (slice_method : loc → Z → Z → M heap value) (σ : heap) (this c : loc)
    (dir file options options' : value) (σ0 : heap) :
  default_arg options (alloc ∅) σ = (Normal options', σ0) →
  nullish (field σ0 c "options") = true →
  constructor mergeDefault slice_method (VObject this) (VObject c) dir file options σ =
    (Abrupt TypeError, σ0).
Proof.
  intros Hoptions Hnull. unfold constructor.
  rewrite (bind_normal _ _ _ _ _ Hoptions).
  js_unfold. cbn -[field store slice].
  by destruct (field σ0 c "options").
Qed.

Lemma constructor_client_without_options_witness :
  constructor Example.mergeDefault Example.slice_method
      (VObject Example.fresh_this)
    (VObject Example.author) (VString "monitors") (VString "invite.js")
    (VObject Example.named_options) Example.σ_named =
  (Abrupt TypeError, Example.σ_named).
Proof.
  apply (constructor_client_without_options Example.mergeDefault Example.slice_method
           Example.σ_named Example.fresh_this Example.author
           (VString "monitors") (VString "invite.js")
           (VObject Example.named_options) (VObject Example.named_options)
           Example.σ_named).
  - reflexivity.
  - vm_compute; reflexivity.
Defined.

(** *** [toJSON] *)

Lemma toJSON_object σ this :
  ∃ o,
    toJSON (VObject this) σ =
      (Normal (VObject (fresh (dom σ))), <[fresh (dom σ) := o]> σ) ∧
    ∀ p, p ∈ json_fields → o !! p = Some (field σ this p).
Proof.
  eexists. split; [reflexivity|].
  intros p Hp. unfold json_fields in Hp.
  repeat (apply elem_of_cons in Hp as [->|Hp]; [reflexivity|]).
  by apply elem_of_nil in Hp.
Qed.

Lemma field_store_other σ l p x l' q :
  l ≠ l' → field (store σ l p x) l' q = field σ l' q.
Proof. intros Hl. unfold field. by rewrite obj_at_store_ne. Qed.

Lemma field_alloc σ l o p :
  field (<[l := o]> σ) l p = default VUndefined (o !! p).
Proof. unfold field, obj_at. by rewrite lookup_insert_eq. Qed.

(** X10: The view of a monitor that has just been constructed: [toJSON] gives
    back the directory and the file passed to the constructor, the type
    ["monitor"], the name the constructor chose and the five flags of the
    merged options. *)
Theorem constructor_toJSON (mergeDefault : value → value → M heap value)
    (slice_method : loc → Z → Z → M heap value)
    (σ : heap) (this : loc) (client dir : value) (f : string)
    (options options' : value) (σ0 : heap) (defaults : value) (σ1 : heap)
    (merged : loc) (σ2 : heap) :
  default_arg options (alloc ∅) σ = (Normal options', σ0) →
  (client ∙ "options" ∙ "pieceDefaults" ∙ "monitors")%js σ0 =
    (Normal defaults, σ1) →
  mergeDefault defaults options' σ1 = (Normal (VObject merged), σ2) →
  ∃ l σ4,
    (constructor mergeDefault slice_method (VObject this) client dir (VString f) options;;
     toJSON (VObject this)) σ = (Normal (VObject l), σ4) ∧
    field σ4 l "dir" = dir ∧
    field σ4 l "file" = VString f ∧
    field σ4 l "type" = VString "monitor" ∧
    field σ4 l "name" =
      (if truthy (field σ2 merged "name") then field σ2 merged "name"
       else VString (slice f 0 (-3))) ∧
    ∀ p, p ∈ flag_fields → field σ4 l p = field σ2 merged p.
Proof.
  intros Hoptions Hdefaults Hmerge.
  destruct (constructor_merged mergeDefault slice_method σ this client dir (VString f)
              options options' σ0 defaults σ1 merged σ2
              (if truthy (field σ2 merged "name") then field σ2 merged "name"
               else VString (slice f 0 (-3))) (conj Hoptions Hdefaults) Hmerge)
    as (σ3 & Hrun & _ & Hd & Hf & Hn & Ht & Hflags & _).
  { destruct (truthy (field σ2 merged "name")); [by left|right].
    split; [done|]. by exists f. }
  rewrite (bind_normal _ _ _ _ _ Hrun).
  destruct (toJSON_object σ3 this) as (o & -> & Ho).
  eexists _, _. split; [reflexivity|].
  assert (∀ p, p ∈ json_fields →
               field (<[fresh (dom σ3) := o]> σ3) (fresh (dom σ3)) p =
               field σ3 this p) as Hview.
  { intros p Hp. by rewrite field_alloc, (Ho p Hp). }
  rewrite <- Hd, <- Hf, <- Ht, <- Hn.
  repeat split;
    try (apply Hview; unfold json_fields;
         repeat first [apply list_elem_of_here | apply list_elem_of_further]).
  intros p Hp. rewrite <- (Hflags p Hp). apply Hview.
  unfold flag_fields in Hp. unfold json_fields.
  repeat (apply elem_of_cons in Hp as [->|Hp];
          [repeat first [apply list_elem_of_here
                        | apply list_elem_of_further]|]).
  by apply elem_of_nil in Hp.
Qed.

Lemma constructor_toJSON_witness :
  ∃ l σ4,
    (constructor Example.mergeDefault Example.slice_method
      (VObject Example.fresh_this)
       (VObject Example.client) (VString "monitors") (VString "invite.js")
       VUndefined;;
     toJSON (VObject Example.fresh_this)) Example.σ =
      (Normal (VObject l), σ4) ∧
    field σ4 l "name" = VString "invite" ∧
    field σ4 l "enabled" = VBool true.
Proof.
  destruct (constructor_toJSON Example.mergeDefault Example.slice_method Example.σ
              Example.fresh_this (VObject Example.client)
              (VString "monitors") "invite.js" VUndefined
              (VObject 11%positive) (alloc ∅ Example.σ).2
              (VObject Example.monitorDefaults) (alloc ∅ Example.σ).2
              11%positive
              (Example.mergeDefault (VObject Example.monitorDefaults)
                 (VObject 11%positive) (alloc ∅ Example.σ).2).2)
    as (l & σ4 & Hrun & _ & _ & _ & Hname & Hflags).
  - reflexivity.
  - reflexivity.
  - reflexivity.
  - exists l, σ4. split; [exact Hrun|]. split.
    + rewrite Hname. reflexivity.
    + rewrite Hflags by left. reflexivity.
Defined.

(** X11: A monitor constructed from merged options in which [ignoreSelf] and
    [ignoreOthers] are both truthy, as under the documented defaults, never
    runs: on any message that has an author, [shouldRun] completes with a
    falsy answer. *)
Theorem constructor_then_shouldRun
    (mergeDefault : value → value → M heap value)
    (slice_method : loc → Z → Z → M heap value)
    (σ : heap) (this c : loc) (dir : value) (f : string)
    (options options' : value) (σ0 : heap) (defaults : value) (σ1 : heap)
    (merged : loc) (σ2 : heap) (msg author : loc) :
  default_arg options (alloc ∅) σ = (Normal options', σ0) →
  (VObject c ∙ "options" ∙ "pieceDefaults" ∙ "monitors")%js σ0 =
    (Normal defaults, σ1) →
  mergeDefault defaults options' σ1 = (Normal (VObject merged), σ2) →
  truthy (field σ2 merged "ignoreSelf") = true →
  truthy (field σ2 merged "ignoreOthers") = true →
  msg ≠ this →
  field σ2 msg "author" = VObject author →
  ∃ v σ3,
    (constructor mergeDefault slice_method (VObject this) (VObject c) dir (VString f)
       options;;
     shouldRun (VObject this) (VObject msg)) σ = (Normal v, σ3) ∧
    truthy v = false.
Proof.
  intros Hoptions Hdefaults Hmerge Hself Hothers Hmsg Hauthor.
  destruct (constructor_merged mergeDefault slice_method σ this (VObject c) dir
              (VString f) options options' σ0 defaults σ1 merged σ2
              (if truthy (field σ2 merged "name") then field σ2 merged "name"
               else VString (slice f 0 (-3))) (conj Hoptions Hdefaults) Hmerge)
    as (σ3 & Hrun & Hc & _ & _ & _ & _ & Hflags & Hframe).
  { destruct (truthy (field σ2 merged "name")); [by left|right].
    split; [done|]. by exists f. }
  rewrite (bind_normal _ _ _ _ _ Hrun).
  assert (in_scene σ3 this c msg author) as Hscene.
  { split; [done|]. unfold field. rewrite Hframe by done. apply Hauthor. }
  rewrite (MonitorSpec.shouldRun_eval _ _ _ _ _ Hscene).
  eexists _, _. split; [reflexivity|].
  unfold flag_fields in Hflags.
  rewrite (Hflags "ignoreSelf"), (Hflags "ignoreOthers"), Hself, Hothers
    by repeat first [apply list_elem_of_here | apply list_elem_of_further].
  unfold isOther, isSelf, strict_ne.
  destruct (truthy (field σ3 this "enabled")) eqn:He; [|done]. simpl.
  destruct (negb _), (strict_eq _ _); reflexivity.
Qed.

Lemma constructor_then_shouldRun_witness :
  ∃ v σ3,
    (constructor Example.mergeDefault Example.slice_method
      (VObject Example.fresh_this)
       (VObject Example.client) (VString "monitors") (VString "invite.js")
       VUndefined;;
     shouldRun (VObject Example.fresh_this) (VObject Example.message))
      Example.σ = (Normal v, σ3) ∧
    truthy v = false.
Proof.
  apply (constructor_then_shouldRun Example.mergeDefault Example.slice_method Example.σ
           Example.fresh_this Example.client (VString "monitors")
           "invite.js" VUndefined
           (VObject 11%positive) (alloc ∅ Example.σ).2
           (VObject Example.monitorDefaults) (alloc ∅ Example.σ).2
           11%positive
           (Example.mergeDefault (VObject Example.monitorDefaults)
              (VObject 11%positive) (alloc ∅ Example.σ).2).2
           Example.message Example.author).
  - reflexivity.
  - reflexivity.
  - reflexivity.
  - reflexivity.
  - reflexivity.
  - discriminate.
  - reflexivity.
Defined.

(** X12: The object returned by [toJSON] is a copy: an assignment to a property
    of the monitor after the call does not show in it. *)
Theorem toJSON_snapshot (σ : heap) (this : loc) (p q : string) (x : value) :
  is_Some (σ !! this) →
  q ∈ json_fields →
  ((json ← toJSON (VObject this);
    set_prop (VObject this) p x;;
    get_prop json q) σ).1 = Normal (field σ this q).
Proof.
  intros Halloc Hq.
  destruct (toJSON_object σ this) as (o & Hjson & Ho).
  rewrite (bind_normal _ _ _ _ _ Hjson).
  unfold mbind, M_bind, set_prop, get_prop. simpl. f_equal.
  rewrite field_store_other, field_alloc, (Ho q Hq); [done|].
  intros ->. apply (is_fresh (dom σ)). by apply elem_of_dom.
Qed.

Lemma toJSON_snapshot_witness :
  ((json ← toJSON (VObject Example.invite);
    set_prop (VObject Example.invite) "enabled" (VBool false);;
    get_prop json "enabled") Example.σ).1 = Normal (VBool true).
Proof.
  etrans;
    [apply (toJSON_snapshot Example.σ Example.invite "enabled" "enabled"
              (VBool false))|reflexivity].
  - by eexists.
  - unfold json_fields. do 4 right. left.
Defined.

End MonitorLaws.

(** ** More on the handler: rejections, work lists, repeated runs *)

Module BulkDeleteLaws.

Import BulkDelete BulkDeleteSpec.

Lemma for_of_app {S A} (l1 l2 : list A) (body : A → M S unit) (s : S) :
  for_of (l1 ++ l2) body s = (for_of l1 body;; for_of l2 body) s.
Proof.
  revert s. induction l1 as [|x l1 IH]; intros s; [done|].
  simpl. unfold mbind, M_bind in *.
  destruct (body x s) as [[[]|e] s']; [|done]. apply IH.
Qed.

(** X13: A batch can be split: handling [ms1 ++ ms2] is handling [ms1] and then,
    unless that was rejected, [ms2] in the state it left. *)
Theorem run_app {World : Type} (deleted : World → handle → bool)
    (delete : handle → M World unit)
    (ms1 ms2 : list (snowflake * Message)) (s : state) :
  run deleted delete (ms1 ++ ms2) s =
    (run deleted delete ms1;; run deleted delete ms2) s.
Proof. apply for_of_app. Qed.

Section WithLibrary.

Context {World : Type}.
Variable deleted : World → handle → bool.
Variable delete : handle → M World unit.

(** *** Rejections *)

Lemma ended_app c w t1 t2 :
  Forall (λ e, is_rejection e = false) t1 →
  ended delete c w t2 → ended delete c w (t1 ++ t2).
Proof.
  intros H1. destruct c as [[]|e]; simpl.
  - intros H2. by apply Forall_app.
  - intros (t0 & id & msg & w0 & -> & H0 & Hcall).
    exists (t1 ++ t0), id, msg, w0. rewrite app_assoc.
    split; [done|]. split; [by apply Forall_app|done].
Qed.

Lemma turn_ended id rs s :
  ∃ t, trace (turn deleted delete id rs s).2 = trace s ++ t ∧
       ended delete (turn deleted delete id rs s).1
         (world (turn deleted delete id rs s).2) t.
Proof.
  revert s. induction rs as [|r rs IH]; intros s.
  - exists []. rewrite turn_nil. simpl. by rewrite app_nil_r.
  - rewrite turn_cons. destruct (deleted (world s) r); [apply IH|].
    destruct (delete r (world s)) as [[[]|e] w] eqn:Hcall.
    + destruct (IH {| world := w;
                      trace := trace s ++
                               [Issued id r; Settled id r true] |})
        as (t & Ht & Hend).
      exists ([Issued id r; Settled id r true] ++ t).
      split; [by rewrite Ht, app_assoc|].
      apply ended_app; [|done]. by repeat constructor.
    + exists [Issued id r; Settled id r false]. split; [done|].
      exists [], id, r, (world s). by repeat split.
Qed.

Lemma run_ended messages s :
  ∃ t, trace (run deleted delete messages s).2 = trace s ++ t ∧
       ended delete (run deleted delete messages s).1
         (world (run deleted delete messages s).2) t.
Proof.
  revert s. induction messages as [|[id m] messages IH]; intros s.
  - exists []. rewrite run_nil. simpl. by rewrite app_nil_r.
  - rewrite run_cons. destruct (command_deletable m); [|apply IH].
    destruct (turn_ended id (responses m) s) as (t0 & Ht0 & Hend0).
    destruct (turn deleted delete id (responses m) s) as [[[]|e] s0];
      simpl in *.
    + destruct (IH s0) as (t & Ht & Hend).
      exists (t0 ++ t). split; [by rewrite Ht, Ht0, app_assoc|].
      by apply ended_app.
    + by exists t0.
Qed.

(** X14: The handler stops at the first rejection.  A call that completes has
    seen every request fulfilled.  A call that is rejected has issued a
    last request, the deletion of that message was rejected by the
    library, the exception thrown is the library's, every earlier request
    was fulfilled, and nothing was issued afterwards. *)
Theorem run_stops_at_rejection messages w :
  ended delete (run deleted delete messages (start w)).1
    (world (run deleted delete messages (start w)).2)
    (trace (run deleted delete messages (start w)).2).
Proof.
  destruct (run_ended messages (start w)) as (t & Ht & Hend).
  by rewrite Ht.
Qed.

(** *** Nothing to do *)

Lemma turn_quiet id rs s :
  (∀ r, r ∈ rs → deleted (world s) r = true) →
  turn deleted delete id rs s = (Normal (), s).
Proof.
  induction rs as [|r rs IH]; intros Hrs; [done|].
  rewrite turn_cons, (Hrs r) by left. apply IH. intros r' Hr'.
  apply Hrs. by right.
Qed.

Lemma run_quiet messages s :
  (∀ id message r, (id, message) ∈ messages →
     command_deletable message = true → r ∈ responses message →
     deleted (world s) r = true) →
  run deleted delete messages s = (Normal (), s).
Proof.
  induction messages as [|[id m] messages IH]; intros Hall; [done|].
  rewrite run_cons. destruct (command_deletable m) eqn:Hcmd.
  - rewrite turn_quiet.
    + apply IH. intros id' m' r Hin. apply (Hall id' m' r). by right.
    + intros r Hr. apply (Hall id m r); [left|done|done].
  - apply IH. intros id' m' r Hin. apply (Hall id' m' r). by right.
Qed.

(** X15: When every response of every message with a deletable command is
    already marked deleted, the handler completes without a single call to
    the library: no event, and the state it was given. *)
Theorem run_nothing_pending messages w :
  (∀ id message r, (id, message) ∈ messages →
     command_deletable message = true → r ∈ responses message →
     deleted w r = true) →
  run deleted delete messages (start w) = (Normal (), start w).
Proof. intros Hall. by apply run_quiet. Qed.

(** *** Where requests come from *)

(** X16: Whatever the library does, a delete request is only ever issued for a
    response recorded on a message of the batch whose command exists and
    is deletable. *)
Theorem run_requests_origin messages w id r :
  Issued id r ∈ trace (run deleted delete messages (start w)).2 →
  ∃ message c,
    (id, message) ∈ messages ∧
    command message = Some c ∧ deletable c = true ∧
    r ∈ responses message.
Proof.
  intros Hin.
  destruct (run_trace deleted delete messages (start w)) as (t & Ht & _ & Hsub).
  simpl in Ht. rewrite Ht in Hin.
  assert (r ∈ requests_for id t) as Hr.
  { unfold requests_for. apply list_elem_of_omap.
    exists (Issued id r). split; [done|]. by rewrite decide_True. }
  apply (elem_of_sublist _ _ _ Hr), walked_origin in Hsub
    as (message & Hmsg & Hcmd & Hresp).
  unfold command_deletable in Hcmd.
  destruct (command message) as [c|] eqn:Hc; [|done].
  by exists message, c.
Qed.

(** *** Work lists *)

Lemma all_requests_app t1 t2 :
  all_requests (t1 ++ t2) = all_requests t1 ++ all_requests t2.
Proof. apply omap_app. Qed.

Section Frame.

(** Awaiting the deletion of one message does not change the [deleted] mark
    of another. *)
Hypothesis delete_frame : ∀ r w w',
  delete r w = (Normal (), w') →
  ∀ r', r' ≠ r → deleted w' r' = deleted w r'.

Lemma turn_work id rs s :
  NoDup rs →
  ∃ t, trace (turn deleted delete id rs s).2 = trace s ++ t ∧
       all_requests t `prefix_of`
         (λ r, (id, r)) <$> filter (λ r, deleted (world s) r = false) rs ∧
       ((turn deleted delete id rs s).1 = Normal () →
        all_requests t =
          (λ r, (id, r)) <$> filter (λ r, deleted (world s) r = false) rs ∧
        ∀ r', r' ∉ rs →
              deleted (world (turn deleted delete id rs s).2) r' =
              deleted (world s) r').
Proof.
  revert s. induction rs as [|r rs IH]; intros s Hnd.
  - exists []. rewrite turn_nil. simpl. by rewrite app_nil_r.
  - apply NoDup_cons in Hnd as [Hr Hnd]. rewrite turn_cons, filter_cons.
    destruct (deleted (world s) r) eqn:Hdel.
    + destruct (IH s Hnd) as (t & Ht & Hpre & Hok).
      exists t. rewrite decide_False by done. split; [done|]. split; [done|].
      intros Hnormal. destruct (Hok Hnormal) as [Heq Hfr]. split; [done|].
      intros r' [_ Hr']%not_elem_of_cons. by apply Hfr.
    + rewrite decide_True by done. rewrite fmap_cons.
      destruct (delete r (world s)) as [[[]|e] w] eqn:Hcall.
      * destruct (IH {| world := w;
                        trace := trace s ++
                                 [Issued id r; Settled id r true] |} Hnd)
          as (t & Ht & Hpre & Hok).
        simpl in *.
        assert (filter (λ r0, deleted w r0 = false) rs =
                filter (λ r0, deleted (world s) r0 = false) rs) as Hsame.
        { apply filter_agree. intros x Hx.
          rewrite (delete_frame _ _ _ Hcall); [done|]. by intros ->. }
        rewrite Hsame in *.
        exists ([Issued id r; Settled id r true] ++ t).
        split; [by rewrite Ht, app_assoc|].
        split; [by apply prefix_cons|].
        intros Hnormal. destruct (Hok Hnormal) as [Heq Hfr].
        split; [simpl; by rewrite Heq|].
        intros r' [Hne Hr']%not_elem_of_cons.
        rewrite Hfr by done. by apply (delete_frame _ _ _ Hcall).
      * exists [Issued id r; Settled id r false]. split; [done|].
        split; [apply prefix_cons, prefix_nil|done].
Qed.

Lemma pending_cons w id message messages :
  pending deleted w ((id, message) :: messages) =
    (if command_deletable message then
       (λ r, (id, r)) <$>
         filter (λ r, deleted w r = false) (responses message)
     else []) ++ pending deleted w messages.
Proof. reflexivity. Qed.

Lemma pending_agree w w' messages :
  (∀ r, r ∈ messages.*2 ≫= responses → deleted w' r = deleted w r) →
  pending deleted w' messages = pending deleted w messages.
Proof.
  induction messages as [|[id m] messages IH]; intros Hsame; [done|].
  rewrite !pending_cons. rewrite fmap_cons, bind_cons in Hsame. cbn [snd] in *.
  rewrite IH by (intros r Hr; apply Hsame, elem_of_app; by right).
  destruct (command_deletable m); [|done]. do 2 f_equal.
  apply filter_agree. intros r Hr.
  rewrite Hsame; [done|]. apply elem_of_app. by left.
Qed.

Lemma run_work messages s :
  NoDup (messages.*2 ≫= responses) →
  ∃ t, trace (run deleted delete messages s).2 = trace s ++ t ∧
       all_requests t `prefix_of` pending deleted (world s) messages ∧
       ((run deleted delete messages s).1 = Normal () →
        all_requests t = pending deleted (world s) messages ∧
        ∀ r', r' ∉ messages.*2 ≫= responses →
              deleted (world (run deleted delete messages s).2) r' =
              deleted (world s) r').
Proof.
  revert s. induction messages as [|[id m] messages IH]; intros s.
  - exists []. rewrite run_nil. simpl. by rewrite app_nil_r.
  - rewrite fmap_cons, bind_cons, run_cons, pending_cons. cbn [snd].
    intros (Hnd0 & Hdisj & Hnd)%NoDup_app.
    destruct (command_deletable m).
    + destruct (turn_work id (responses m) s Hnd0) as (t0 & Ht0 & Hpre0 & Hok0).
      destruct (turn deleted delete id (responses m) s) as [[[]|e] s0];
        simpl in *.
      * destruct (Hok0 eq_refl) as [Heq0 Hfr0].
        destruct (IH s0 Hnd) as (t & Ht & Hpre & Hok).
        assert (pending deleted (world s0) messages =
                pending deleted (world s) messages) as Hsame.
        { apply pending_agree. intros r Hr. apply Hfr0.
          intros Hr0. by apply (Hdisj r). }
        rewrite Hsame in *.
        exists (t0 ++ t). split; [by rewrite Ht, Ht0, app_assoc|].
        rewrite all_requests_app, Heq0. split; [by apply prefix_app|].
        intros Hnormal. destruct (Hok Hnormal) as [Heq Hfr].
        split; [by rewrite Heq|].
        intros r' [Hr0 Hr']%not_elem_of_app. rewrite Hfr, Hfr0; done.
      * exists t0. split; [done|]. split; [by apply prefix_app_r|done].
    + destruct (IH s Hnd) as (t & Ht & Hpre & Hok).
      exists t. split; [done|]. split; [done|].
      intros Hnormal. destruct (Hok Hnormal) as [Heq Hfr]. split; [done|].
      intros r' [Hr0 Hr']%not_elem_of_app. by apply Hfr.
Qed.

(** X17: The requests of a call follow its work list.  With a library in which
    one deletion leaves the marks of the other messages alone, and no
    response recorded twice, the requests issued by a call are, whether it
    completes or is rejected, an initial part of the list of the responses
    to delete as it stood at the call, in the order of the messages and of
    their responses; a call that completes has issued all of them. *)
Theorem run_follows_work_list messages w :
  NoDup (messages.*2 ≫= responses) →
  all_requests (trace (run deleted delete messages (start w)).2)
    `prefix_of` pending deleted w messages ∧
  ((run deleted delete messages (start w)).1 = Normal () →
   all_requests (trace (run deleted delete messages (start w)).2) =
     pending deleted w messages).
Proof.
  intros Hnd.
  destruct (run_work messages (start w) Hnd) as (t & Ht & Hpre & Hok).
  simpl in *. rewrite Ht. split; [done|].
  intros Hnormal. by destruct (Hok Hnormal).
Qed.

(** *** Running twice *)

(** A fulfilled deletion marks its message deleted. *)
Hypothesis delete_marks : ∀ r w w',
  delete r w = (Normal (), w') → deleted w' r = true.

Lemma delete_keeps_marks r w w' r' :
  delete r w = (Normal (), w') → deleted w r' = true → deleted w' r' = true.
Proof.
  intros Hcall Hr'. destruct (decide (r' = r)) as [->|Hne].
  - by apply (delete_marks _ _ _ Hcall).
  - by rewrite (delete_frame _ _ _ Hcall).
Qed.

Lemma turn_marks id rs s s' :
  turn deleted delete id rs s = (Normal (), s') →
  (∀ r, r ∈ rs → deleted (world s') r = true) ∧
  (∀ r, deleted (world s) r = true → deleted (world s') r = true).
Proof.
  revert s. induction rs as [|r rs IH]; intros s.
  - rewrite turn_nil. intros [= <-]. split; [|done].
    intros r Hr. by apply elem_of_nil in Hr.
  - rewrite turn_cons. destruct (deleted (world s) r) eqn:Hdel.
    + intros Hturn. destruct (IH _ Hturn) as [Hall Hkeep]. split; [|done].
      intros r' [->|Hr']%elem_of_cons; [by apply Hkeep|by apply Hall].
    + destruct (delete r (world s)) as [[[]|e] w] eqn:Hcall; [|done].
      intros Hturn. destruct (IH _ Hturn) as [Hall Hkeep]. simpl in *. split.
      * intros r' [->|Hr']%elem_of_cons; [|by apply Hall].
        apply Hkeep. by apply (delete_marks _ _ _ Hcall).
      * intros r' Hr'. apply Hkeep. by apply (delete_keeps_marks _ _ _ _ Hcall).
Qed.

Lemma run_marks messages s s' :
  run deleted delete messages s = (Normal (), s') →
  (∀ id message r, (id, message) ∈ messages →
     command_deletable message = true → r ∈ responses message →
     deleted (world s') r = true) ∧
  (∀ r, deleted (world s) r = true → deleted (world s') r = true).
Proof.
  revert s. induction messages as [|[id m] messages IH]; intros s.
  - rewrite run_nil. intros [= <-]. split; [|done].
    intros id message r Hin. by apply elem_of_nil in Hin.
  - rewrite run_cons. destruct (command_deletable m) eqn:Hcmd.
    + destruct (turn deleted delete id (responses m) s)
        as [[[]|e] s0] eqn:Hturn; [|done].
      intros Hrun. destruct (turn_marks _ _ _ _ Hturn) as [Hall0 Hkeep0].
      destruct (IH _ Hrun) as [Hall Hkeep]. split.
      * intros id' m' r [Heq|Hin]%elem_of_cons Hcmd' Hr.
        -- injection Heq as -> ->. by apply Hkeep, Hall0.
        -- by apply (Hall id' m' r).
      * intros r Hr. by apply Hkeep, Hkeep0.
    + intros Hrun. destruct (IH _ Hrun) as [Hall Hkeep]. split; [|done].
      intros id' m' r [Heq|Hin]%elem_of_cons Hcmd' Hr.
      * injection Heq as -> ->. congruence.
      * by apply (Hall id' m' r).
Qed.

(** X18: With a library whose fulfilled deletions mark their message and leave
    the other marks alone, the handler is idempotent: after a call that
    completed, a second call on the same batch issues no request and
    leaves the library's state as it is. *)
Theorem run_twice messages w s' :
  run deleted delete messages (start w) = (Normal (), s') →
  run deleted delete messages (start (world s')) =
    (Normal (), start (world s')).
Proof.
  intros Hrun. apply run_quiet.
  intros id message r Hin Hcmd Hr.
  by apply (run_marks _ _ _ Hrun) with id message.
Qed.

End Frame.

End WithLibrary.

(** The library of the examples marks what it deletes and nothing else. *)
Lemma example_delete_frame failing r w w' :
  Example.delete failing r w = (Normal (), w') →
  ∀ r', r' ≠ r → Example.deleted w' r' = Example.deleted w r'.
Proof.
  unfold Example.delete, Example.deleted. case_decide; [done|].
  intros [= <-] r' Hne. apply bool_decide_ext.
  rewrite elem_of_union, elem_of_singleton.
  split; [intros [?|?]; [congruence|done]|intros ?; by right].
Qed.

Lemma example_delete_marks failing r w w' :
  Example.delete failing r w = (Normal (), w') → Example.deleted w' r = true.
Proof.
  unfold Example.delete, Example.deleted. case_decide; [done|].
  intros [= <-]. apply bool_decide_eq_true.
  apply elem_of_union. left. by apply elem_of_singleton.
Qed.

Lemma run_nothing_pending_witness :
  run Example.deleted (Example.delete ∅) Example.two_responses
    (start {[10%positive; 11%positive]}) =
  (Normal (), start {[10%positive; 11%positive]}).
Proof.
  apply (run_nothing_pending Example.deleted (Example.delete ∅)
           Example.two_responses {[10%positive; 11%positive]}).
  intros id message r Hin _ Hr.
  apply list_elem_of_singleton in Hin. injection Hin as -> ->.
  simpl in Hr.
  repeat (apply elem_of_cons in Hr as [->|Hr]; [vm_compute; reflexivity|]).
  by apply elem_of_nil in Hr.
Defined.

Lemma run_requests_origin_witness :
  ∃ message c,
    ("1"%string, message) ∈ Example.two_responses ∧
    command message = Some c ∧ deletable c = true ∧
    11%positive ∈ responses message.
Proof.
  apply (run_requests_origin Example.deleted (Example.delete ∅)
           Example.two_responses {[10%positive]} "1" 11%positive).
  apply (bool_decide_unpack _). vm_compute. exact I.
Defined.

Lemma run_follows_work_list_witness :
  let r := run Example.deleted (Example.delete {[12%positive]})
             Example.four_messages (start {[10%positive]}) in
  all_requests (trace r.2) `prefix_of`
    pending Example.deleted {[10%positive]} Example.four_messages ∧
  (r.1 = Normal () →
   all_requests (trace r.2) =
     pending Example.deleted {[10%positive]} Example.four_messages).
Proof.
  apply (run_follows_work_list Example.deleted
           (Example.delete {[12%positive]})
           (example_delete_frame {[12%positive]})
           Example.four_messages {[10%positive]}).
  apply (bool_decide_unpack _). vm_compute. exact I.
Defined.

Lemma run_twice_witness :
  run Example.deleted (Example.delete ∅) Example.two_responses
    (start (world (run Example.deleted (Example.delete ∅)
                     Example.two_responses (start {[10%positive]})).2)) =
  (Normal (),
   start (world (run Example.deleted (Example.delete ∅)
                   Example.two_responses (start {[10%positive]})).2)).
Proof.
  apply (run_twice Example.deleted (Example.delete ∅)
           (example_delete_frame ∅) (example_delete_marks ∅)
           Example.two_responses {[10%positive]}).
  vm_compute. reflexivity.
Defined.

End BulkDeleteLaws.
